(** * CarND Object Detection Lab: detection post-processing and parameter counting

    A shallow embedding of the utility functions of
    [CarND-Object-Detection-Lab.ipynb] ([filter_boxes], [to_image_coords],
    [draw_boxes]) and of the parameter-counting cell that compares
    [vanilla_conv_block] with [mobilenet_conv_block].

    Numbers.  The arrays handled by the notebook hold finite floating-point
    values.  Every finite float is a rational, comparison of floats is the
    comparison of the rationals they denote and [int()] truncates that
    rational, so scores, classes and coordinates are values of [Q].
    Multiplication is the exact product of rationals; where a property
    depends on the rounding of the floating-point product, the rounding is
    a parameter ([to_image_coords_fl]).  A NaN or an infinity is a value of
    [npfloat]; the arrays of the store hold finite values.

    Arrays.  NumPy arrays are mutable objects that functions receive by
    reference.  The model keeps them in a store; a function takes references
    and runs in a state-and-exception monad over that store, so that
    "returns a new array" and "does not touch its argument" are statements
    about the store. *)

From Stdlib Require Import String DecimalString.
From Stdlib Require Import ZArith NArith QArith Qabs Qround Lia Lqa Bool.
From Stdlib Require Import List Sorted.
Import ListNotations.

Local Open Scope Q_scope.

(** ** Python values and exceptions *)

(** The exceptions the modelled code can raise.  [DanglingRef] has no Python
    counterpart: it is what the model answers when a reference does not
    denote an array of the store, which no Python program can produce. *)
Inductive exn : Type :=
| IndexError
| ValueError
| OverflowError
| DanglingRef.

(** A floating-point value: a finite one is the rational it denotes. *)
Inductive npfloat : Type :=
| Finite (q : Q)
| PosInf
| NegInf
| NaN.

Coercion Finite : Q >-> npfloat.

(** A row of an array of shape (n, 4).  The detector emits the components
    in the order (top, left, bottom, right), i.e. (ymin, xmin, ymax, xmax). *)
Record Box : Type := mkBox { col0 : Q; col1 : Q; col2 : Q; col3 : Q }.

(** The four literal column indices [0], [1], [2], [3] of the source. *)
Inductive column : Type := C0 | C1 | C2 | C3.

Definition get_col (c : column) (b : Box) : Q :=
  match c with
  | C0 => col0 b | C1 => col1 b | C2 => col2 b | C3 => col3 b
  end.

Definition set_col (c : column) (v : Q) (b : Box) : Box :=
  match c with
  | C0 => mkBox v (col1 b) (col2 b) (col3 b)
  | C1 => mkBox (col0 b) v (col2 b) (col3 b)
  | C2 => mkBox (col0 b) (col1 b) v (col3 b)
  | C3 => mkBox (col0 b) (col1 b) (col2 b) v
  end.

(** One call of [ImageDraw.line]: the vertex list, the [width] and the
    [fill] colour name. *)
Record line_cmd : Type := mkLine {
  line_xy : list (Q * Q);
  line_width : Z;
  line_fill : string
}.

(** ** The store *)

(** One-dimensional arrays (scores, classes) and arrays of shape (n, 4)
    (boxes) live in two typed stores; [canvas] is the sequence of lines drawn
    so far on the image. *)
Record world : Type := mkWorld {
  vecs : list (list Q);
  mats : list (list Box);
  canvas : list line_cmd
}.

Definition vref := nat.
Definition mref := nat.

(** State and exception monad: a computation maps a store to the store it
    leaves and either the raised exception or the returned value.  The store
    is kept when an exception is raised: effects before the raise persist. *)
Definition M (A : Type) : Type := world -> world * (exn + A).

Definition ret {A} (a : A) : M A := fun w => (w, inr a).
Definition raise {A} (e : exn) : M A := fun w => (w, inl e).
Definition bind {A B} (m : M A) (f : A -> M B) : M B :=
  fun w => match m w with
           | (w', inl e) => (w', inl e)
           | (w', inr a) => f a w'
           end.

Notation "x <- m ;; k" := (bind m (fun x => k))
  (at level 61, m at next level, right associativity).
Notation "m ;;; k" := (bind m (fun _ => k))
  (at level 61, right associativity).

Definition lift {A} (r : exn + A) : M A := fun w => (w, r).

(** [for x in xs: s = body(x, s)] *)
Fixpoint for_in {A S} (xs : list A) (body : A -> S -> M S) (s : S) : M S :=
  match xs with
  | [] => ret s
  | x :: xs' => s' <- body x s ;; for_in xs' body s'
  end.

(** [range(n)] *)
Definition range (n : nat) : list nat := seq 0 n.

(** ** NumPy primitives *)

Definition read_vec (r : vref) : M (list Q) :=
  fun w => match nth_error (vecs w) r with
           | Some a => (w, inr a)
           | None => (w, inl DanglingRef)
           end.

Definition read_mat (r : mref) : M (list Box) :=
  fun w => match nth_error (mats w) r with
           | Some a => (w, inr a)
           | None => (w, inl DanglingRef)
           end.

(** Allocation of a new array: the fresh reference is the next free slot. *)
Definition alloc_vec (a : list Q) : M vref :=
  fun w => (mkWorld (vecs w ++ [a]) (mats w) (canvas w), inr (length (vecs w))).

Definition alloc_mat (a : list Box) : M mref :=
  fun w => (mkWorld (vecs w) (mats w ++ [a]) (canvas w), inr (length (mats w))).

Fixpoint list_update {A} (l : list A) (i : nat) (x : A) : list A :=
  match l, i with
  | [], _ => []
  | _ :: t, O => x :: t
  | h :: t, S j => h :: list_update t j x
  end.

Definition write_mat (r : mref) (a : list Box) : M unit :=
  fun w => match nth_error (mats w) r with
           | Some _ => (mkWorld (vecs w) (list_update (mats w) r a) (canvas w), inr tt)
           | None => (w, inl DanglingRef)
           end.

(** [len(a)] *)
Definition vec_len (r : vref) : M nat := a <- read_vec r ;; ret (length a).
Definition mat_len (r : mref) : M nat := a <- read_mat r ;; ret (length a).

(** [a[i]] for an index [i] produced by [range]: [IndexError] past the end. *)
Definition getitem {A} (a : list A) (i : nat) : exn + A :=
  match nth_error a i with
  | Some x => inr x
  | None => inl IndexError
  end.

Definition vec_getitem (r : vref) (i : nat) : M Q :=
  a <- read_vec r ;; lift (getitem a i).

(** [a[i, ...]] on an array of shape (n, 4): row [i]. *)
Definition mat_getitem (r : mref) (i : nat) : M Box :=
  a <- read_mat r ;; lift (getitem a i).

(** Integer-array indexing [a[idxs, ...]] with a list of non-negative
    indices: every index is checked, one of them past the end raises
    [IndexError]; otherwise the selected entries are copied, in the order of
    [idxs] (an empty [idxs] selects nothing). *)
Fixpoint gather {A} (a : list A) (idxs : list nat) : exn + list A :=
  match idxs with
  | [] => inr []
  | i :: rest =>
      match nth_error a i with
      | None => inl IndexError
      | Some x =>
          match gather a rest with
          | inl e => inl e
          | inr xs => inr (x :: xs)
          end
      end
  end.

(** The result of integer-array indexing is a new array, never a view. *)
Definition vec_take (r : vref) (idxs : list nat) : M vref :=
  a <- read_vec r ;; sel <- lift (gather a idxs) ;; alloc_vec sel.

Definition mat_take (r : mref) (idxs : list nat) : M mref :=
  a <- read_mat r ;; sel <- lift (gather a idxs) ;; alloc_mat sel.

Definition zero_box : Box := mkBox 0 0 0 0.

(** [np.zeros_like(a)]: a new array of the shape of [a], filled with zeros. *)
Definition zeros_like (r : mref) : M mref :=
  a <- read_mat r ;; alloc_mat (map (fun _ => zero_box) a).

(** [a[:, c]]: the values of column [c]. *)
Definition mat_getcol (r : mref) (c : column) : M (list Q) :=
  a <- read_mat r ;; ret (map (get_col c) a).

(** [v * k] for an array [v] and a scalar [k]. *)
Definition scale (v : list Q) (k : Q) : list Q := map (fun x => x * k) v.

Fixpoint assign_col (c : column) (a : list Box) (v : list Q) : list Box :=
  match a, v with
  | b :: a', x :: v' => set_col c x b :: assign_col c a' v'
  | _, _ => a
  end.

(** [a[:, c] = v]: in-place assignment of a column.  The right-hand side
    must have as many entries as [a] has rows, or exactly one entry, which
    is broadcast; any other length raises [ValueError]. *)
Definition mat_setcol (r : mref) (c : column) (v : list Q) : M unit :=
  a <- read_mat r ;;
  if Nat.eqb (length v) (length a) then write_mat r (assign_col c a v)
  else match v with
       | [x] => write_mat r (map (set_col c x) a)
       | _ => raise ValueError
       end.

(** ** The utility functions of the notebook *)

(** The body of the loop of [filter_boxes], on the list [idxs] built so far:
    [if scores[i] >= min_score: idxs.append(i)]. *)
Definition collect (min_score : Q) (scores : vref) (i : nat) (idxs : list nat)
  : M (list nat) :=
  s <- vec_getitem scores i ;;
  if Qle_bool min_score s then ret (idxs ++ [i]) else ret idxs.

(** [filter_boxes(min_score, boxes, scores, classes)]

    <<
    n = len(classes)
    idxs = []
    for i in range(n):
        if scores[i] >= min_score:
            idxs.append(i)
    filtered_boxes = boxes[idxs, ...]
    filtered_scores = scores[idxs, ...]
    filtered_classes = classes[idxs, ...]
    return filtered_boxes, filtered_scores, filtered_classes
    >> *)
Definition filter_boxes (min_score : Q) (boxes : mref) (scores classes : vref)
  : M (mref * vref * vref) :=
  n <- vec_len classes ;;
  idxs <- for_in (range n) (collect min_score scores) [] ;;
  filtered_boxes <- mat_take boxes idxs ;;
  filtered_scores <- vec_take scores idxs ;;
  filtered_classes <- vec_take classes idxs ;;
  ret (filtered_boxes, filtered_scores, filtered_classes).

(** [to_image_coords(boxes, height, width)]

    <<
    box_coords = np.zeros_like(boxes)
    box_coords[:, 0] = boxes[:, 0] * height
    box_coords[:, 1] = boxes[:, 1] * width
    box_coords[:, 2] = boxes[:, 2] * height
    box_coords[:, 3] = boxes[:, 3] * width
    return box_coords
    >> *)
Definition to_image_coords (boxes : mref) (height width : Q) : M mref :=
  box_coords <- zeros_like boxes ;;
  v0 <- mat_getcol boxes C0 ;; mat_setcol box_coords C0 (scale v0 height) ;;;
  v1 <- mat_getcol boxes C1 ;; mat_setcol box_coords C1 (scale v1 width) ;;;
  v2 <- mat_getcol boxes C2 ;; mat_setcol box_coords C2 (scale v2 height) ;;;
  v3 <- mat_getcol boxes C3 ;; mat_setcol box_coords C3 (scale v3 width) ;;;
  ret box_coords.

Section Rounded.

(** The rounding of the floating-point product: the product NumPy stores is
    [fl] of the exact product. *)
Variable fl : Q -> Q.

(** [v * k] for an array [v] and a scalar [k], rounded. *)
Definition scale_fl (v : list Q) (k : Q) : list Q := map (fun x => fl (x * k)) v.

(** [to_image_coords(boxes, height, width)] with its products rounded;
    [to_image_coords] is the case of a rounding that changes nothing. *)
Definition to_image_coords_fl (boxes : mref) (height width : Q) : M mref :=
  box_coords <- zeros_like boxes ;;
  v0 <- mat_getcol boxes C0 ;; mat_setcol box_coords C0 (scale_fl v0 height) ;;;
  v1 <- mat_getcol boxes C1 ;; mat_setcol box_coords C1 (scale_fl v1 width) ;;;
  v2 <- mat_getcol boxes C2 ;; mat_setcol box_coords C2 (scale_fl v2 height) ;;;
  v3 <- mat_getcol boxes C3 ;; mat_setcol box_coords C3 (scale_fl v3 width) ;;;
  ret box_coords.

End Rounded.

(** The integer part of a rational: the quotient of numerator by
    denominator, rounded toward zero. *)
Definition int_part (q : Q) : Z := Z.quot (Qnum q) (Zpos (Qden q)).

(** [int(x)] on a float: truncation toward zero of a finite value;
    [OverflowError] on an infinity and [ValueError] on NaN. *)
Definition py_int (x : npfloat) : exn + Z :=
  match x with
  | Finite q => inr (int_part q)
  | PosInf | NegInf => inl OverflowError
  | NaN => inl ValueError
  end.

(** [l[i]] on a Python list with an integer index: a negative index counts
    from the end, an index outside [-len(l), len(l)) raises [IndexError]. *)
Definition list_getitem {A} (l : list A) (i : Z) : exn + A :=
  let n := Z.of_nat (length l) in
  if (0 <=? i)%Z then getitem l (Z.to_nat i)
  else if (- n <=? i)%Z then getitem l (Z.to_nat (n + i))
  else inl IndexError.

(** [draw.line(xy, width=..., fill=...)]: one more line on the image. *)
Definition draw_line (xy : list (Q * Q)) (width : Z) (fill : string) : M unit :=
  fun w => (mkWorld (vecs w) (mats w) (canvas w ++ [mkLine xy width fill]), inr tt).

Section Drawing.

(** [COLOR_LIST = sorted([c for c in cmap.keys()])]: the sorted colour
    names of the imaging library's colour map, a module-level constant. *)
Variable COLOR_LIST : list string.

(** The two lines [class_id = int(classes[i])] and
    [color = COLOR_LIST[class_id]] applied to one class value. *)
Definition class_color (cls : npfloat) : exn + string :=
  match py_int cls with
  | inl e => inl e
  | inr class_id => list_getitem COLOR_LIST class_id
  end.

(** The vertex list handed to [draw.line] for one row of [boxes]:
    [bot, left, top, right = boxes[i, ...]] followed by
    [[(left, top), (left, bot), (right, bot), (right, top), (left, top)]]. *)
Definition box_polyline (row : Box) : list (Q * Q) :=
  let '(bot, left', top, right') := (col0 row, col1 row, col2 row, col3 row) in
  [(left', top); (left', bot); (right', bot); (right', top); (left', top)].

(** The body of the loop of [draw_boxes]. *)
Definition draw_one (boxes : mref) (classes : vref) (thickness : Z)
  (i : nat) (_ : unit) : M unit :=
  row <- mat_getitem boxes i ;;
  cls <- vec_getitem classes i ;;
  color <- lift (class_color cls) ;;
  draw_line (box_polyline row) thickness color.

(** [draw_boxes(image, boxes, classes, thickness=4)]

    <<
    draw = ImageDraw.Draw(image)
    for i in range(len(boxes)):
        bot, left, top, right = boxes[i, ...]
        class_id = int(classes[i])
        color = COLOR_LIST[class_id]
        draw.line([(left, top), (left, bot), (right, bot), (right, top),
                   (left, top)], width=thickness, fill=color)
    >> *)
Definition draw_boxes (boxes : mref) (classes : vref) (thickness : Z) : M unit :=
  n <- mat_len boxes ;;
  for_in (range n) (draw_one boxes classes thickness) tt.

End Drawing.

(** The default [thickness=4] of [draw_boxes]. *)
Definition default_thickness : Z := 4%Z.

(** ** The detection cell *)

(** [confidence_cutoff = 0.8]: the value of the literal is the double
    nearest to 8/10. *)
Definition confidence_cutoff : Q := 3602879701896397 # 4503599627370496.

(** The post-processing of the detection cell, from the squeezed arrays of
    the detector on ([image_size] is [image.size], a pair (width, height)):

    <<
    confidence_cutoff = 0.8
    boxes, scores, classes = filter_boxes(confidence_cutoff, boxes, scores, classes)
    width, height = image.size
    box_coords = to_image_coords(boxes, height, width)
    draw_boxes(image, box_coords, classes)
    >> *)
Definition detection_cell (COLOR_LIST : list string) (image_size : Z * Z)
  (boxes : mref) (scores classes : vref) : M unit :=
  filtered <- filter_boxes confidence_cutoff boxes scores classes ;;
  let '(boxes, scores, classes) := filtered in
  let '(width, height) := image_size in
  box_coords <- to_image_coords boxes (inject_Z height) (inject_Z width) ;;
  draw_boxes COLOR_LIST box_coords classes default_thickness.

(** ** Parameter counting *)

(** The framework's graph is modelled by the variables it holds.  A tensor is
    its static shape; a layer call appends the variables the framework
    creates for it and returns the shape of its output.  What each layer
    creates is the documented behaviour of the framework's layer functions
    with the arguments the notebook passes: [tf.layers.conv2d] keeps its
    default [use_bias=True] and so creates a [kernel] and a [bias];
    [tf.layers.batch_normalization] creates the trainable [gamma] and [beta]
    and the non-trainable [moving_mean] and [moving_variance] (the order in
    which [gamma] and [beta] are created varies with the framework's version
    and matters to no count).  [tf.layers.conv2d] rejects an input without
    channels and a layer without filters: it raises [ValueError] while the
    graph is built.  Entry counts are exact natural numbers: the wrap-around
    of NumPy's fixed-width integers is not modelled. *)
Module TF.

Local Open Scope N_scope.
Local Open Scope string_scope.

Definition shape := list N.

Record variable : Type := mkVar {
  var_name : string;
  var_shape : shape;
  var_trainable : bool
}.

(** The graph under construction: the enclosing [tf.variable_scope], the
    scoped names already handed out (a repeated name gets a numeric
    suffix), and the variables in creation order. *)
Record graph : Type := mkGraph {
  g_scope : string;
  g_names : list string;
  g_vars : list variable
}.

Definition empty_graph : graph := mkGraph "" [] [].

Definition string_of_nat (n : nat) : string :=
  NilEmpty.string_of_uint (Nat.to_uint n).

Definition scoped (g : graph) (base : string) : string :=
  if String.eqb (g_scope g) "" then base else g_scope g ++ "/" ++ base.

(** [base], [base_1], [base_2], ... within the current scope. *)
Definition unique_name (g : graph) (base : string) : graph * string :=
  let full := scoped g base in
  let k := count_occ string_dec (g_names g) full in
  let name := match k with
              | O => full
              | _ => full ++ "_" ++ string_of_nat k
              end in
  (mkGraph (g_scope g) (g_names g ++ [full]) (g_vars g), name).

Definition add_variable (g : graph) (name : string) (s : shape) (trainable : bool)
  : graph :=
  mkGraph (g_scope g) (g_names g) (g_vars g ++ [mkVar (name ++ ":0") s trainable]).

(** A step of the construction of the graph: it extends the graph and
    returns a value, or raises. *)
Definition G (A : Type) : Type := graph -> exn + (graph * A).

Definition gret {A} (a : A) : G A := fun g => inr (g, a).

Definition gbind {A B} (m : G A) (f : A -> G B) : G B :=
  fun g => match m g with
           | inl e => inl e
           | inr (g', a) => f a g'
           end.

Notation "x <~ m ;; k" := (gbind m (fun x => k))
  (at level 61, m at next level, right associativity).

(** [with tf.variable_scope(name): body] at top level. *)
Definition with_variable_scope {A} (name : string) (body : G A) : G A :=
  fun g => match body (mkGraph name (g_names g) (g_vars g)) with
           | inl e => inl e
           | inr (g', a) => inr (mkGraph (g_scope g) (g_names g') (g_vars g'), a)
           end.

(** [tf.constant(np.random.randn(...), dtype=tf.float32)]: the array of
    the given shape becomes a constant of the graph, an operation named
    [Const]; no variable is created. *)
Definition constant (s : shape) : G shape :=
  fun g => let '(g1, _) := unique_name g "Const" in inr (g1, s).

(** Output size of a spatial dimension under ['SAME'] padding. *)
Definition same_out (n stride : N) : N := (n + stride - 1) / stride.

(** [x.shape.as_list()[-1]] *)
Definition last_dim (x : shape) : N := last x 0.

Definition nhwc (x : shape) : N * N * N * N :=
  (nth 0 x 0, nth 1 x 0, nth 2 x 0, nth 3 x 0).

(** [tf.layers.conv2d(x, filters, kernel_size, strides, padding='SAME')]:
    [ValueError] for an input of depth 0 and for 0 filters. *)
Definition layers_conv2d (x : shape) (filters : N) (kernel_size strides : N * N)
  : G shape :=
  fun g =>
    let '(n, h, w, c) := nhwc x in
    if ((c =? 0) || (filters =? 0))%N then inl ValueError
    else
      let '(g1, name) := unique_name g "conv2d" in
      let g2 := add_variable g1 (name ++ "/kernel")
                  [fst kernel_size; snd kernel_size; c; filters] true in
      let g3 := add_variable g2 (name ++ "/bias") [filters] true in
      inr (g3, [n; same_out h (fst strides); same_out w (snd strides); filters]).

(** [tf.layers.batch_normalization(x)] *)
Definition layers_batch_normalization (x : shape) : G shape :=
  fun g =>
    let c := last_dim x in
    let '(g1, name) := unique_name g "batch_normalization" in
    let g2 := add_variable g1 (name ++ "/gamma") [c] true in
    let g3 := add_variable g2 (name ++ "/beta") [c] true in
    let g4 := add_variable g3 (name ++ "/moving_mean") [c] false in
    let g5 := add_variable g4 (name ++ "/moving_variance") [c] false in
    inr (g5, x).

(** [tf.Variable(tf.truncated_normal(s))]: a trainable variable. *)
Definition tf_Variable (s : shape) : G shape :=
  fun g =>
    let '(g1, name) := unique_name g "Variable" in
    inr (add_variable g1 name s true, s).

(** [tf.nn.depthwise_conv2d(x, W, (1, sh, sw, 1), padding='SAME')]: no
    variable of its own; [W] has shape (kh, kw, in_channels, multiplier). *)
Definition nn_depthwise_conv2d (x W : shape) (strides : N * N) : shape :=
  let '(n, h, w, c) := nhwc x in
  [n; same_out h (fst strides); same_out w (snd strides); c * nth 3 W 0].

(** [tf.nn.relu(x)] *)
Definition nn_relu (x : shape) : shape := x.

(** [np.prod(v.get_shape().as_list())] *)
Definition np_prod (s : shape) : N := fold_left N.mul s 1.

(** [tf.get_collection(tf.GraphKeys.TRAINABLE_VARIABLES, scope)]: the
    trainable variables whose name starts with [scope], in creation
    order. *)
Definition trainable_variables (g : graph) (scope : string) : list variable :=
  filter (fun v => var_trainable v && String.prefix scope (var_name v)) (g_vars g).

End TF.

(** NumPy's true division of two integer scalars: a zero divisor gives an
    infinity or NaN (with a warning), not an exception. *)
Definition true_divide (a b : N) : npfloat :=
  match b, a with
  | N0, N0 => NaN
  | N0, Npos _ => PosInf
  | Npos p, _ => Finite (Z.of_N a # p)
  end.

(** [sum(l)] *)
Definition py_sum (l : list N) : N := fold_left N.add l 0%N.

Section Blocks.

Import TF.
Local Open Scope string_scope.

(** [vanilla_conv_block(x, kernel_size, output_channels)]

    <<
    x = tf.layers.conv2d(
        x, output_channels, kernel_size, (2, 2), padding='SAME')
    x = tf.layers.batch_normalization(x)
    return tf.nn.relu(x)
    >> *)
Definition vanilla_conv_block (x : shape) (kernel_size output_channels : N)
  : G shape :=
  x <~ layers_conv2d x output_channels (kernel_size, kernel_size) (2, 2)%N ;;
  x <~ layers_batch_normalization x ;;
  gret (nn_relu x).

(** [mobilenet_conv_block(x, kernel_size, output_channels)]

    <<
    input_channel = x.shape.as_list()[-1]
    W = tf.Variable(tf.truncated_normal(
            (kernel_size, kernel_size, input_channel, 1)))
    x = tf.nn.depthwise_conv2d(x, W, (1, 2, 2, 1), padding='SAME')
    x = tf.layers.batch_normalization(x)
    x = tf.nn.relu(x)
    x = tf.layers.conv2d(x, output_channels, (1, 1), padding='SAME')
    x = tf.layers.batch_normalization(x)
    return tf.nn.relu(x)
    >> *)
Definition mobilenet_conv_block (x : shape) (kernel_size output_channels : N)
  : G shape :=
  let input_channel := last_dim x in
  W <~ tf_Variable [kernel_size; kernel_size; input_channel; 1%N] ;;
  let x := nn_depthwise_conv2d x W (2, 2)%N in
  x <~ layers_batch_normalization x ;;
  let x := nn_relu x in
  x <~ layers_conv2d x output_channels (1, 1)%N (1, 1)%N ;;
  x <~ layers_batch_normalization x ;;
  gret (nn_relu x).

(** What the parameter-counting cell computes and prints. *)
Record report : Type := mkReport {
  vanilla_params : list (string * N);
  mobile_params : list (string * N);
  total_vanilla_params : N;
  total_mobile_params : N;
  reduction : npfloat
}.

(** The counting part of the cell, on the graph that holds both blocks.

    <<
    vanilla_params = [(v.name, np.prod(v.get_shape().as_list()))
                      for v in tf.get_collection(TRAINABLE_VARIABLES, 'vanilla')]
    mobile_params = [... 'mobile' ...]
    total_vanilla_params = sum([p[1] for p in vanilla_params])
    total_mobile_params = sum([p[1] for p in mobile_params])
    ... total_vanilla_params / total_mobile_params
    >> *)
Definition count_variables (g : graph) : report :=
  let vanilla_params :=
    map (fun v => (var_name v, np_prod (var_shape v)))
      (trainable_variables g "vanilla") in
  let mobile_params :=
    map (fun v => (var_name v, np_prod (var_shape v)))
      (trainable_variables g "mobile") in
  let total_vanilla_params := py_sum (map snd vanilla_params) in
  let total_mobile_params := py_sum (map snd mobile_params) in
  mkReport vanilla_params mobile_params total_vanilla_params total_mobile_params
    (true_divide total_vanilla_params total_mobile_params).

(** The parameter-counting cell, as a function of its five constants: the
    input tensor and the two blocks are added to a new graph, which may
    raise, and the variables of the graph are counted.

    <<
    with tf.Session(graph=tf.Graph()) as sess:
        x = tf.constant(np.random.randn(1, IMG_HEIGHT, IMG_WIDTH, INPUT_CHANNELS), ...)
        with tf.variable_scope('vanilla'):
            vanilla_conv = vanilla_conv_block(x, KERNEL_SIZE, OUTPUT_CHANNELS)
        with tf.variable_scope('mobile'):
            mobilenet_conv = mobilenet_conv_block(x, KERNEL_SIZE, OUTPUT_CHANNELS)
        ... (the counting part)
    >> *)
Definition parameter_cell
  (INPUT_CHANNELS OUTPUT_CHANNELS KERNEL_SIZE IMG_HEIGHT IMG_WIDTH : N)
  : exn + report :=
  match (x <~ constant [1%N; IMG_HEIGHT; IMG_WIDTH; INPUT_CHANNELS] ;;
         vanilla_conv <~ with_variable_scope "vanilla"
                           (vanilla_conv_block x KERNEL_SIZE OUTPUT_CHANNELS) ;;
         mobilenet_conv <~ with_variable_scope "mobile"
                             (mobilenet_conv_block x KERNEL_SIZE OUTPUT_CHANNELS) ;;
         gret tt) empty_graph with
  | inl e => inl e
  | inr (g, _) => inr (count_variables g)
  end.

(** Nothing counted and nothing printed. *)
Definition no_report : report := mkReport [] [] 0 0 NaN.

(** What the cell has counted when it ends: the report of
    [parameter_cell], and nothing when the cell raised. *)
Definition count_params
  (INPUT_CHANNELS OUTPUT_CHANNELS KERNEL_SIZE IMG_HEIGHT IMG_WIDTH : N) : report :=
  match parameter_cell INPUT_CHANNELS OUTPUT_CHANNELS KERNEL_SIZE
          IMG_HEIGHT IMG_WIDTH with
  | inr r => r
  | inl _ => no_report
  end.

End Blocks.

(** The constants of the notebook's cell. *)
Definition INPUT_CHANNELS : N := 32.
Definition OUTPUT_CHANNELS : N := 512.
Definition KERNEL_SIZE : N := 3.
Definition IMG_HEIGHT : N := 256.
Definition IMG_WIDTH : N := 256.

(** * Vocabulary of the properties *)

(** [w'] extends [w]: every array of [w] is still there, unchanged, and
    nothing was drawn. *)
Definition unchanged (w w' : world) : Prop :=
  (forall r a, nth_error (vecs w) r = Some a -> nth_error (vecs w') r = Some a) /\
  (forall r a, nth_error (mats w) r = Some a -> nth_error (mats w') r = Some a) /\
  canvas w' = canvas w.

(** A call raises when it ends with an exception. *)
Definition raises {A} (m : M A) (w : world) : Prop :=
  exists e, snd (m w) = inl e.

(** Position [i] holds a score of at least [min_score]. *)
Definition keeps (min_score : Q) (S : list Q) (i : nat) : bool :=
  match nth_error S i with
  | Some s => Qle_bool min_score s
  | None => false
  end.

(** The positions below [n] whose score is at least [min_score], in
    increasing order. *)
Definition retained (min_score : Q) (S : list Q) (n : nat) : list nat :=
  filter (keeps min_score S) (range n).

(** The detections of a batch: position [i] of the three arrays, taken
    together. *)
Definition detections (B : list Box) (S C : list Q) : list (Box * (Q * Q)) :=
  combine B (combine S C).

(** The detection has a score of at least [min_score]. *)
Definition confident (min_score : Q) (d : Box * (Q * Q)) : bool :=
  Qle_bool min_score (fst (snd d)).

(** The detection at position [i]. *)
Definition detection_at (B : list Box) (S C : list Q) (i : nat) : Box * (Q * Q) :=
  (nth i B zero_box, (nth i S 0, nth i C 0)).

(** The two preconditions the specification names: the three arrays have
    one length, and the threshold lies in [0,1]. *)
Definition valid_input (min_score : Q) (B : list Box) (S C : list Q) : Prop :=
  length B = length S /\ length S = length C /\ (0 <= min_score <= 1)%Q.

(** What [filter_boxes] needs in order to return: every index of [classes]
    is an index of [scores], and every retained index is an index of
    [boxes]. *)
Definition indexable (min_score : Q) (B : list Box) (S C : list Q) : bool :=
  (length C <=? length S)%nat &&
  forallb (fun i => (i <? length B)%nat) (retained min_score S (length C)).

(** A box with components 0 and 2 scaled by [height] and components 1 and
    3 by [width]. *)
Definition pixel_box (height width : Q) (b : Box) : Box :=
  mkBox (col0 b * height) (col1 b * width) (col2 b * height) (col3 b * width).

(** Component-wise equality of boxes as rational numbers. *)
Definition Box_eq (b b' : Box) : Prop :=
  (col0 b == col0 b')%Q /\ (col1 b == col1 b')%Q /\
  (col2 b == col2 b')%Q /\ (col3 b == col3 b')%Q.

(** The inverse the round-trip law speaks of: division of the four
    components by (height, width, height, width). *)
Definition divide_by_geometry (height width : Q) (p : Box) : Box :=
  mkBox (col0 p / height) (col1 p / width) (col2 p / height) (col3 p / width).

(** The standard model of floating-point rounding: on values of magnitude
    at most [omega] (no overflow), [fl] is off by at most the relative error
    [u] plus the absolute error [eta] (underflow).  For single precision
    [u] is 2^-24 and [eta] 2^-150. *)
Definition rounds (fl : Q -> Q) (u eta omega : Q) : Prop :=
  forall x, (Qabs x <= omega)%Q -> (Qabs (fl x - x) <= u * Qabs x + eta)%Q.

(** A box with rounded products. *)
Definition pixel_box_fl (fl : Q -> Q) (height width : Q) (b : Box) : Box :=
  mkBox (fl (col0 b * height)) (fl (col1 b * width))
        (fl (col2 b * height)) (fl (col3 b * width)).

(** The division by (height, width, height, width), rounded. *)
Definition divide_by_geometry_fl (fl : Q -> Q) (height width : Q) (p : Box) : Box :=
  mkBox (fl (col0 p / height)) (fl (col1 p / width))
        (fl (col2 p / height)) (fl (col3 p / width)).

(** The boxes agree within [tol] in each component. *)
Definition Box_close (tol : Q) (b b' : Box) : Prop :=
  (Qabs (col0 b - col0 b') <= tol /\ Qabs (col1 b - col1 b') <= tol /\
   Qabs (col2 b - col2 b') <= tol /\ Qabs (col3 b - col3 b') <= tol)%Q.

(** A rounding: to the multiple of 1/1024 below. *)
Definition quantize (x : Q) : Q := Qfloor (x * 1024) # 1024.

(** Truncation toward zero: [z] is the integer part of [x]. *)
Definition truncates (x : Q) (z : Z) : Prop :=
  ((0 <= x)%Q -> (inject_Z z <= x)%Q /\ (x < inject_Z z + 1)%Q) /\
  ((x <= 0)%Q -> (inject_Z z - 1 < x)%Q /\ (x <= inject_Z z)%Q).

(** The lines [draw_boxes] draws for the rows [rows], the first of which
    has index [i], and how its loop ends: with the first exception, if
    any. *)
Fixpoint draw_trace (COLOR_LIST : list string) (thickness : Z)
  (rows : list Box) (C : list Q) (i : nat) : list line_cmd * (exn + unit) :=
  match rows with
  | [] => ([], inr tt)
  | row :: rows' =>
      match getitem C i with
      | inl e => ([], inl e)
      | inr cls =>
          match class_color COLOR_LIST cls with
          | inl e => ([], inl e)
          | inr color =>
              let '(ls, r) := draw_trace COLOR_LIST thickness rows' C (S i) in
              (mkLine (box_polyline row) thickness color :: ls, r)
          end
      end
  end.

(** The vertex list the specification gives for a pixel box
    (top, left, bottom, right):
    (left,top) -> (left,bottom) -> (right,bottom) -> (right,top) -> (left,top). *)
Definition spec_polyline (b : Box) : list (Q * Q) :=
  let '(top, left', bottom, right') := (col0 b, col1 b, col2 b, col3 b) in
  [(left', top); (left', bottom); (right', bottom); (right', top); (left', top)].

(** The parameter counts as the specification writes them, for a
    batch-normalization convention of [bn] parameters per channel and no
    bias term. *)
Definition spec_vanilla_param_count (bn kernel_size input_channels output_channels : N)
  : N :=
  (kernel_size * kernel_size * input_channels * output_channels
   + bn * output_channels)%N.

Definition spec_separable_param_count
  (bn kernel_size input_channels output_channels : N) : N :=
  ((kernel_size * kernel_size * input_channels + bn * input_channels)
   + (1 * 1 * input_channels * output_channels + bn * output_channels))%N.

(** The three arrays of a list of detections. *)
Definition boxes_of (F : list (Box * (Q * Q))) : list Box := map fst F.
Definition scores_of (F : list (Box * (Q * Q))) : list Q :=
  map (fun d => fst (snd d)) F.
Definition classes_of (F : list (Box * (Q * Q))) : list Q :=
  map (fun d => snd (snd d)) F.

(** The integer part of the class value is an index of the colour list,
    counted from the start or, when negative, from the end. *)
Definition in_palette (COLOR_LIST : list string) (cls : Q) : Prop :=
  exists z, truncates cls z /\
            (- Z.of_nat (length COLOR_LIST) <= z < Z.of_nat (length COLOR_LIST))%Z.

(** Box [i] has a class value, and that value a colour. *)
Definition paintable (COLOR_LIST : list string) (C : list Q) (i : nat) : Prop :=
  exists cls, nth_error C i = Some cls /\ in_palette COLOR_LIST cls.

(** The class value has a colour: its lookup does not raise. *)
Definition has_color (COLOR_LIST : list string) (cls : Q) : bool :=
  match class_color COLOR_LIST cls with
  | inr _ => true
  | inl _ => false
  end.

(** Each of the first [n] boxes has a class value, and that value has a
    colour. *)
Definition drawable (COLOR_LIST : list string) (n : nat) (C : list Q) : bool :=
  forallb (fun i => match nth_error C i with
                    | Some cls => has_color COLOR_LIST cls
                    | None => false
                    end) (range n).

(** All four components of the box lie in [0,1]. *)
Definition normalized (b : Box) : Prop :=
  (0 <= col0 b <= 1 /\ 0 <= col1 b <= 1 /\ 0 <= col2 b <= 1 /\ 0 <= col3 b <= 1)%Q.


(** Top is not below bottom and left is not right of right. *)
Definition well_formed (b : Box) : Prop :=
  (col0 b <= col2 b /\ col1 b <= col3 b)%Q.

(** The counts of both blocks fit NumPy's 64-bit integers. *)
Definition counts_in_range (input_channels output_channels kernel_size : N) : Prop :=
  (kernel_size * kernel_size * input_channels * output_channels
   + 3 * output_channels < 2 ^ 63 /\
   (kernel_size * kernel_size * input_channels + input_channels * output_channels)
   + 3 * output_channels + 2 * input_channels < 2 ^ 63)%N.

(** ** Example data *)

(** The batch of the spec's scenarios 1 and 2: one detection with box
    (0.1, 0.1, 0.5, 0.5), score 0.9 and class 3.  [scores] is array 0 and
    [classes] array 1 of the one-dimensional store, [boxes] array 0 of the
    other. *)
Definition scenario_box : Box := mkBox (1#10) (1#10) (1#2) (1#2).
Definition scenario_world : world :=
  mkWorld [[9#10]; [3#1]] [[scenario_box]] [].

(** A batch whose [scores] array is longer than the two others. *)
Definition long_scores_world : world :=
  mkWorld [[9#10; 95#100]; [3#1]] [[scenario_box]] [].

(** A batch whose [scores] array is empty. *)
Definition short_scores_world : world :=
  mkWorld [[]; [3#1]] [[scenario_box]] [].

(** The box of the spec's scenario 3, alone in the store. *)
Definition scenario_3_box : Box := mkBox (1#2) (1#4) 1 (3#4).
Definition scenario_3_world : world := mkWorld [] [[scenario_3_box]] [].

(** A palette of two colours, and a batch of one box of class 2. *)
Definition two_colors : list string := ["aliceblue"; "antiquewhite"]%string.
Definition class_2_world : world := mkWorld [[9#10]; [2#1]] [[scenario_box]] [].

(** A pixel box with top 10, left 20, bottom 30 and right 40, of class 0. *)
Definition pixel_box_10_20_30_40 : Box := mkBox 10 20 30 40.
Definition pixel_world : world :=
  mkWorld [[0#1]] [[pixel_box_10_20_30_40]] [].

(** Five colours, and a batch of one box whose class value is 3.9. *)
Definition five_colors : list string :=
  ["aliceblue"; "antiquewhite"; "aqua"; "aquamarine"; "azure"]%string.
Definition class_3_9_world : world :=
  mkWorld [[39#10]] [[pixel_box_10_20_30_40]] [].

(** Two boxes, the first of class 0, the second of class 5. *)
Definition two_box_world : world :=
  mkWorld [[0#1; 5#1]] [[pixel_box_10_20_30_40; scenario_box]] [].

(** The parameter-counting cell with the notebook's constants. *)
Definition notebook_report : report :=
  count_params INPUT_CHANNELS OUTPUT_CHANNELS KERNEL_SIZE IMG_HEIGHT IMG_WIDTH.

(** * Properties *)

Local Open Scope nat_scope.

(** ** Running the monad *)

Lemma bind_ok {A B} (m : M A) (k : A -> M B) (w w' : world) (a : A) :
  m w = (w', inr a) -> bind m k w = k a w'.
Proof. intros H. unfold bind. rewrite H. reflexivity. Qed.

Lemma bind_err {A B} (m : M A) (k : A -> M B) (w w' : world) (e : exn) :
  m w = (w', inl e) -> bind m k w = (w', inl e).
Proof. intros H. unfold bind. rewrite H. reflexivity. Qed.

Lemma read_vec_run (w : world) (r : vref) (a : list Q) :
  nth_error (vecs w) r = Some a -> read_vec r w = (w, inr a).
Proof. intros H. unfold read_vec. rewrite H. reflexivity. Qed.

Lemma read_mat_run (w : world) (r : mref) (a : list Box) :
  nth_error (mats w) r = Some a -> read_mat r w = (w, inr a).
Proof. intros H. unfold read_mat. rewrite H. reflexivity. Qed.

Lemma vec_len_run (w : world) (r : vref) (a : list Q) :
  nth_error (vecs w) r = Some a -> vec_len r w = (w, inr (length a)).
Proof.
  intros H. unfold vec_len. rewrite (bind_ok _ _ _ _ _ (read_vec_run _ _ _ H)).
  reflexivity.
Qed.

Lemma mat_len_run (w : world) (r : mref) (a : list Box) :
  nth_error (mats w) r = Some a -> mat_len r w = (w, inr (length a)).
Proof.
  intros H. unfold mat_len. rewrite (bind_ok _ _ _ _ _ (read_mat_run _ _ _ H)).
  reflexivity.
Qed.

Lemma vec_getitem_run (w : world) (r : vref) (a : list Q) (i : nat) :
  nth_error (vecs w) r = Some a -> vec_getitem r i w = (w, getitem a i).
Proof.
  intros H. unfold vec_getitem. rewrite (bind_ok _ _ _ _ _ (read_vec_run _ _ _ H)).
  reflexivity.
Qed.

Lemma mat_getitem_run (w : world) (r : mref) (a : list Box) (i : nat) :
  nth_error (mats w) r = Some a -> mat_getitem r i w = (w, getitem a i).
Proof.
  intros H. unfold mat_getitem. rewrite (bind_ok _ _ _ _ _ (read_mat_run _ _ _ H)).
  reflexivity.
Qed.

(** ** Lists and the store *)

Lemma nth_error_old {A} (l : list A) (x : A) (r : nat) (a : A) :
  nth_error l r = Some a -> nth_error (l ++ [x]) r = Some a.
Proof.
  intros H. rewrite nth_error_app1; [exact H|].
  apply nth_error_Some. rewrite H. discriminate.
Qed.

Lemma nth_error_new {A} (l : list A) (x : A) :
  nth_error (l ++ [x]) (length l) = Some x.
Proof. rewrite nth_error_app2, Nat.sub_diag by lia. reflexivity. Qed.

Lemma nth_error_fresh {A} (l : list A) : nth_error l (length l) = None.
Proof. apply nth_error_None. lia. Qed.

Lemma list_update_new {A} (l : list A) (x y : A) :
  list_update (l ++ [x]) (length l) y = l ++ [y].
Proof. induction l as [|h t IH]; simpl; [reflexivity | now rewrite IH]. Qed.

Lemma getitem_nth {A} (a : list A) (i : nat) (d : A) :
  i < length a -> getitem a i = inr (nth i a d).
Proof.
  intros H. unfold getitem.
  destruct (nth_error a i) as [x|] eqn:E.
  - now rewrite (nth_error_nth _ _ d E).
  - apply nth_error_None in E. lia.
Qed.

Lemma getitem_out {A} (a : list A) (i : nat) :
  length a <= i -> getitem a i = inl IndexError.
Proof.
  intros H. unfold getitem. apply nth_error_None in H. now rewrite H.
Qed.

Lemma gather_ok {A} (a : list A) (d : A) (idxs : list nat) :
  (forall i, In i idxs -> i < length a) ->
  gather a idxs = inr (map (fun i => nth i a d) idxs).
Proof.
  induction idxs as [|i rest IH]; simpl; intros H; [reflexivity|].
  destruct (nth_error a i) as [x|] eqn:E.
  - rewrite IH by (intros k Hk; apply H; now right).
    now rewrite (nth_error_nth _ _ d E).
  - apply nth_error_None in E. specialize (H i (or_introl eq_refl)). lia.
Qed.

Lemma gather_out {A} (a : list A) (idxs : list nat) :
  (exists i, In i idxs /\ length a <= i) -> gather a idxs = inl IndexError.
Proof.
  induction idxs as [|i rest IH]; simpl; intros [j [Hin Hj]]; [contradiction|].
  destruct (nth_error a i) as [x|] eqn:E; [|reflexivity].
  destruct Hin as [->|Hin].
  - apply nth_error_None in Hj. congruence.
  - rewrite IH by eauto. reflexivity.
Qed.

Lemma vec_take_run (w : world) (r : vref) (a : list Q) (idxs : list nat) :
  nth_error (vecs w) r = Some a ->
  (forall i, In i idxs -> i < length a) ->
  vec_take r idxs w =
    (mkWorld (vecs w ++ [map (fun i => nth i a 0%Q) idxs]) (mats w) (canvas w),
     inr (length (vecs w))).
Proof.
  intros H Hin. unfold vec_take.
  rewrite (bind_ok _ _ _ _ _ (read_vec_run _ _ _ H)).
  unfold bind, lift. rewrite (gather_ok a 0%Q idxs Hin). reflexivity.
Qed.

Lemma mat_take_run (w : world) (r : mref) (a : list Box) (idxs : list nat) :
  nth_error (mats w) r = Some a ->
  (forall i, In i idxs -> i < length a) ->
  mat_take r idxs w =
    (mkWorld (vecs w) (mats w ++ [map (fun i => nth i a zero_box) idxs]) (canvas w),
     inr (length (mats w))).
Proof.
  intros H Hin. unfold mat_take.
  rewrite (bind_ok _ _ _ _ _ (read_mat_run _ _ _ H)).
  unfold bind, lift. rewrite (gather_ok a zero_box idxs Hin). reflexivity.
Qed.

Lemma mat_take_out (w : world) (r : mref) (a : list Box) (idxs : list nat) :
  nth_error (mats w) r = Some a ->
  (exists i, In i idxs /\ length a <= i) ->
  mat_take r idxs w = (w, inl IndexError).
Proof.
  intros H Hout. unfold mat_take.
  rewrite (bind_ok _ _ _ _ _ (read_mat_run _ _ _ H)).
  unfold bind, lift. rewrite (gather_out a idxs Hout). reflexivity.
Qed.

(** ** [filter_boxes] *)

Lemma retained_spec (min_score : Q) (S : list Q) (n i : nat) :
  In i (retained min_score S n) <->
  i < n /\ exists s, nth_error S i = Some s /\ (min_score <= s)%Q.
Proof.
  unfold retained, range, keeps. rewrite filter_In, in_seq. split.
  - intros [Hi Hk]. split; [lia|].
    destruct (nth_error S i) as [s|]; [|discriminate].
    exists s. split; [reflexivity | now apply Qle_bool_iff].
  - intros [Hi [s [Hs Hle]]]. split; [lia|].
    rewrite Hs. now apply Qle_bool_iff.
Qed.

Lemma StronglySorted_filter {A} (R : A -> A -> Prop) (p : A -> bool) (l : list A) :
  StronglySorted R l -> StronglySorted R (filter p l).
Proof.
  induction 1 as [|x l Hs IH Hall]; simpl; [constructor|].
  destruct (p x); [|exact IH].
  constructor; [exact IH|].
  rewrite Forall_forall in *. intros y Hy. apply Hall.
  apply filter_In in Hy. tauto.
Qed.

Lemma StronglySorted_seq (a n : nat) : StronglySorted lt (seq a n).
Proof.
  revert a. induction n as [|n IH]; intros a; simpl; constructor; [apply IH|].
  apply Forall_forall. intros y Hy. apply in_seq in Hy. lia.
Qed.

Lemma retained_sorted (min_score : Q) (S : list Q) (n : nat) :
  StronglySorted lt (retained min_score S n).
Proof. apply StronglySorted_filter, StronglySorted_seq. Qed.

Lemma retained_length (min_score : Q) (S : list Q) (n : nat) :
  length (retained min_score S n) <= n.
Proof.
  unfold retained, range.
  pose proof (filter_length_le (keeps min_score S) (seq 0 n)) as H.
  now rewrite length_seq in H.
Qed.

Lemma retained_cons (min_score s : Q) (S : list Q) (n : nat) :
  retained min_score (s :: S) (Datatypes.S n) =
  (if Qle_bool min_score s then [0] else []) ++ map Datatypes.S (retained min_score S n).
Proof.
  unfold retained, range. simpl seq. simpl filter.
  rewrite <- seq_shift, filter_map_swap.
  unfold keeps at 1. simpl nth_error.
  destruct (Qle_bool min_score s); reflexivity.
Qed.

(** Gathering the retained positions is the stable filter of the
    detections by their score. *)
Lemma retained_is_filter (min_score : Q) :
  forall (B : list Box) (S C : list Q),
    length B = length C ->
    length S = length C ->
    map (detection_at B S C) (retained min_score S (length C)) =
    filter (confident min_score) (detections B S C).
Proof.
  induction B as [|b B IH]; intros [|s S] [|c C] HB HS; try discriminate.
  - reflexivity.
  - simpl length. rewrite retained_cons, map_app, map_map.
    simpl in HB, HS. injection HB as HB. injection HS as HS.
    specialize (IH S C HB HS).
    unfold detections, confident. simpl.
    change (map (fun i => detection_at (b :: B) (s :: S) (c :: C) (Datatypes.S i)))
      with (map (detection_at B S C)).
    rewrite IH. destruct (Qle_bool min_score s); reflexivity.
Qed.

Lemma collect_loop_ok (w : world) (min_score : Q) (scores : vref) (S : list Q) :
  nth_error (vecs w) scores = Some S ->
  forall (js acc : list nat),
    (forall i, In i js -> i < length S) ->
    for_in js (collect min_score scores) acc w =
      (w, inr (acc ++ filter (keeps min_score S) js)).
Proof.
  intros HS. induction js as [|i js IH]; intros acc Hin; simpl.
  - rewrite app_nil_r. reflexivity.
  - assert (Hi : i < length S) by (apply Hin; now left).
    assert (Hin' : forall k, In k js -> k < length S) by (intros k Hk; apply Hin; now right).
    unfold collect at 1.
    unfold bind at 1 2. rewrite (vec_getitem_run _ _ _ _ HS).
    rewrite (getitem_nth S i 0%Q Hi). unfold keeps at 1.
    destruct (nth_error S i) as [s|] eqn:E;
      [| apply nth_error_None in E; lia].
    rewrite (nth_error_nth _ _ 0%Q E).
    destruct (Qle_bool min_score s); unfold ret at 1; rewrite IH by exact Hin'.
    + now rewrite <- app_assoc.
    + reflexivity.
Qed.

Lemma collect_loop_out (w : world) (min_score : Q) (scores : vref) (S : list Q) :
  nth_error (vecs w) scores = Some S ->
  forall (js acc : list nat),
    (exists i, In i js /\ length S <= i) ->
    for_in js (collect min_score scores) acc w = (w, inl IndexError).
Proof.
  intros HS. induction js as [|i js IH]; intros acc [j [Hin Hj]]; simpl.
  - contradiction.
  - unfold collect at 1. unfold bind at 1 2.
    rewrite (vec_getitem_run _ _ _ _ HS).
    destruct (Nat.lt_ge_cases i (length S)) as [Hi|Hi].
    + rewrite (getitem_nth S i 0%Q Hi).
      destruct Hin as [->|Hin]; [lia|].
      destruct (Qle_bool min_score (nth i S 0%Q)); unfold ret at 1; apply IH; eauto.
    + now rewrite (getitem_out S i Hi).
Qed.

Section FilterBoxes.

Variables (w : world) (min_score : Q) (boxes : mref) (scores classes : vref).
Variables (B : list Box) (S C : list Q).
Hypothesis HB : nth_error (mats w) boxes = Some B.
Hypothesis HS : nth_error (vecs w) scores = Some S.
Hypothesis HC : nth_error (vecs w) classes = Some C.

Let idxs := retained min_score S (length C).
Let FB := map (fun i => nth i B zero_box) idxs.
Let FS := map (fun i => nth i S 0%Q) idxs.
Let FC := map (fun i => nth i C 0%Q) idxs.

Lemma retained_in_classes (i : nat) : In i idxs -> i < length C.
Proof. intros H. apply retained_spec in H. tauto. Qed.

Lemma filter_boxes_loop :
  length C <= length S ->
  for_in (range (length C)) (collect min_score scores) [] w = (w, inr idxs).
Proof.
  intros Hlen. rewrite (collect_loop_ok w min_score scores S HS).
  - reflexivity.
  - intros i Hi. apply in_seq in Hi. lia.
Qed.

(** The run of [filter_boxes] when it returns: three arrays are allocated,
    nothing else changes. *)
Lemma filter_boxes_run :
  length C <= length S ->
  (forall i, In i idxs -> i < length B) ->
  filter_boxes min_score boxes scores classes w =
    (mkWorld ((vecs w ++ [FS]) ++ [FC]) (mats w ++ [FB]) (canvas w),
     inr (length (mats w), length (vecs w), length (vecs w ++ [FS]))).
Proof.
  intros Hlen Hin. unfold filter_boxes.
  rewrite (bind_ok _ _ _ _ _ (vec_len_run _ _ _ HC)).
  rewrite (bind_ok _ _ _ _ _ (filter_boxes_loop Hlen)).
  rewrite (bind_ok _ _ _ _ _ (mat_take_run _ _ _ _ HB Hin)).
  erewrite bind_ok; cycle 1.
  { apply vec_take_run with (a := S); [exact HS|].
    intros i Hi. apply retained_in_classes in Hi. lia. }
  erewrite bind_ok; cycle 1.
  { apply vec_take_run with (a := C); [apply nth_error_old; exact HC|].
    apply retained_in_classes. }
  reflexivity.
Qed.

(** [scores] shorter than [classes]: the loop reads past the end. *)
Lemma filter_boxes_short_scores :
  length S < length C ->
  filter_boxes min_score boxes scores classes w = (w, inl IndexError).
Proof.
  intros Hlen. unfold filter_boxes.
  rewrite (bind_ok _ _ _ _ _ (vec_len_run _ _ _ HC)).
  apply bind_err. apply (collect_loop_out w min_score scores S HS).
  exists (length S). split; [|lia]. apply in_seq. lia.
Qed.

(** A retained index past the end of [boxes]: the first indexing fails,
    before anything is allocated. *)
Lemma filter_boxes_short_boxes :
  length C <= length S ->
  (exists i, In i idxs /\ length B <= i) ->
  filter_boxes min_score boxes scores classes w = (w, inl IndexError).
Proof.
  intros Hlen Hout. unfold filter_boxes.
  rewrite (bind_ok _ _ _ _ _ (vec_len_run _ _ _ HC)).
  rewrite (bind_ok _ _ _ _ _ (filter_boxes_loop Hlen)).
  apply bind_err. apply (mat_take_out _ _ _ _ HB Hout).
Qed.

End FilterBoxes.

Lemma unchanged_alloc (w : world) (vs : list (list Q)) (ms : list (list Box)) :
  unchanged w (mkWorld (vecs w ++ vs) (mats w ++ ms) (canvas w)).
Proof.
  repeat split; simpl; intros r a H; rewrite nth_error_app1; auto;
    apply nth_error_Some; rewrite H; discriminate.
Qed.

Example filter_boxes_scenario_1 :
  filter_boxes (8#10) 0 0 1 scenario_world =
    (mkWorld [[9#10]; [3#1]; [9#10]; [3#1]]%Q [[scenario_box]; [scenario_box]] [],
     inr (1, 2, 3)).
Proof. reflexivity. Qed.

Example filter_boxes_scenario_2 :
  filter_boxes (95#100) 0 0 1 scenario_world =
    (mkWorld [[9#10]; [3#1]; []; []]%Q [[scenario_box]; []] [], inr (1, 2, 3)).
Proof. reflexivity. Qed.

(** C1: for every batch whose three arrays have the same length and every
    threshold (in particular every threshold in [0,1]), [filter_boxes]
    returns three new arrays holding the entries at the indices [idxs],
    where [idxs] is strictly increasing (the input order is kept) and
    contains exactly the positions whose score is at least [min_score]
    (boundary included), so that the detections returned are the stable
    filter of the input detections by [score >= min_score]; the three
    returned references are fresh and every array of the input store, the
    batch included, is unchanged. *)
Theorem filter_boxes_retains_exactly :
  forall (w : world) (min_score : Q) (boxes : mref) (scores classes : vref)
         (B : list Box) (S C : list Q),
    nth_error (mats w) boxes = Some B ->
    nth_error (vecs w) scores = Some S ->
    nth_error (vecs w) classes = Some C ->
    length B = length C ->
    length S = length C ->
    exists (w' : world) (fb : mref) (fs fc : vref) (idxs : list nat),
      filter_boxes min_score boxes scores classes w = (w', inr (fb, fs, fc)) /\
      StronglySorted lt idxs /\
      (forall i, In i idxs <->
                 exists s, nth_error S i = Some s /\ (min_score <= s)%Q) /\
      map (detection_at B S C) idxs
        = filter (confident min_score) (detections B S C) /\
      nth_error (mats w') fb = Some (map (fun i => nth i B zero_box) idxs) /\
      nth_error (vecs w') fs = Some (map (fun i => nth i S 0%Q) idxs) /\
      nth_error (vecs w') fc = Some (map (fun i => nth i C 0%Q) idxs) /\
      nth_error (mats w) fb = None /\
      nth_error (vecs w) fs = None /\
      nth_error (vecs w) fc = None /\
      unchanged w w'.
Proof.
  intros w min_score boxes scores classes B S C HB HS HC HlB HlS.
  pose (idxs := retained min_score S (length C)).
  assert (Hin : forall i, In i idxs -> i < length B).
  { intros i Hi. apply retained_spec in Hi. lia. }
  eexists _, _, _, _, idxs. split.
  - apply (filter_boxes_run w min_score boxes scores classes B S C HB HS HC);
      [lia | exact Hin].
  - split; [apply retained_sorted|]. split.
    { intros i. unfold idxs. rewrite retained_spec. split.
      - tauto.
      - intros [s [Hs Hle]]. split; [|eauto].
        rewrite <- HlS. apply nth_error_Some. rewrite Hs. discriminate. }
    split; [apply retained_is_filter; assumption|].
    simpl. split; [apply nth_error_new|]. split.
    { apply nth_error_old, nth_error_new. }
    split; [apply nth_error_new|].
    split; [apply nth_error_fresh|]. split; [apply nth_error_fresh|].
    split.
    { apply nth_error_None. rewrite length_app. simpl. lia. }
    rewrite <- app_assoc. apply unchanged_alloc.
Qed.

Lemma filter_boxes_retains_exactly_witness :
  exists (w' : world) (fb : mref) (fs fc : vref) (idxs : list nat),
    filter_boxes (8#10) 0 0 1 scenario_world = (w', inr (fb, fs, fc)) /\
    StronglySorted lt idxs /\
    (forall i, In i idxs <->
               exists s, nth_error [9#10]%Q i = Some s /\ (8#10 <= s)%Q) /\
    map (detection_at [scenario_box] [9#10]%Q [3#1]%Q) idxs
      = filter (confident (8#10)) (detections [scenario_box] [9#10]%Q [3#1]%Q) /\
    nth_error (mats w') fb = Some (map (fun i => nth i [scenario_box] zero_box) idxs) /\
    nth_error (vecs w') fs = Some (map (fun i => nth i [9#10]%Q 0%Q) idxs) /\
    nth_error (vecs w') fc = Some (map (fun i => nth i [3#1]%Q 0%Q) idxs) /\
    nth_error (mats scenario_world) fb = None /\
    nth_error (vecs scenario_world) fs = None /\
    nth_error (vecs scenario_world) fc = None /\
    unchanged scenario_world w'.
Proof.
  apply (filter_boxes_retains_exactly scenario_world (8#10) 0 0 1
           [scenario_box] [9#10]%Q [3#1]%Q); reflexivity.
Defined.

(** C7: on a batch whose three arrays have the same length [n],
    [filter_boxes] returns (never raises) three arrays of one common length
    [n' <= n]; when no score reaches the threshold the three arrays are
    empty. *)
Theorem filter_boxes_keeps_invariant :
  forall (w : world) (min_score : Q) (boxes : mref) (scores classes : vref)
         (B : list Box) (S C : list Q),
    nth_error (mats w) boxes = Some B ->
    nth_error (vecs w) scores = Some S ->
    nth_error (vecs w) classes = Some C ->
    length B = length C ->
    length S = length C ->
    exists (w' : world) (fb : mref) (fs fc : vref)
           (B' : list Box) (S' C' : list Q),
      filter_boxes min_score boxes scores classes w = (w', inr (fb, fs, fc)) /\
      nth_error (mats w') fb = Some B' /\
      nth_error (vecs w') fs = Some S' /\
      nth_error (vecs w') fc = Some C' /\
      length B' = length S' /\
      length S' = length C' /\
      0 <= length C' <= length C /\
      ((forall s, In s S -> (s < min_score)%Q) -> B' = [] /\ S' = [] /\ C' = []).
Proof.
  intros w min_score boxes scores classes B S C HB HS HC HlB HlS.
  pose (idxs := retained min_score S (length C)).
  assert (Hin : forall i, In i idxs -> i < length B).
  { intros i Hi. apply retained_spec in Hi. lia. }
  eexists _, _, _, _, _, _, _. split.
  - apply (filter_boxes_run w min_score boxes scores classes B S C HB HS HC);
      [lia | exact Hin].
  - simpl. split; [apply nth_error_new|]. split.
    { apply nth_error_old, nth_error_new. }
    split; [apply nth_error_new|].
    rewrite !length_map. split; [reflexivity|]. split; [reflexivity|].
    split; [split; [lia | apply retained_length]|].
    intros Hnone.
    assert (E : retained min_score S (length C) = []).
    { destruct (retained min_score S (length C)) as [|i rest] eqn:E; [reflexivity|].
      assert (Hi : In i (retained min_score S (length C))) by (rewrite E; now left).
      apply retained_spec in Hi. destruct Hi as [_ [s [Hs Hle]]].
      apply nth_error_In in Hs. apply Hnone in Hs.
      exfalso. exact (Qlt_not_le _ _ Hs Hle). }
    rewrite E. simpl. auto.
Qed.

Lemma filter_boxes_keeps_invariant_witness :
  exists (w' : world) (fb : mref) (fs fc : vref)
         (B' : list Box) (S' C' : list Q),
    filter_boxes (95#100) 0 0 1 scenario_world = (w', inr (fb, fs, fc)) /\
    nth_error (mats w') fb = Some B' /\
    nth_error (vecs w') fs = Some S' /\
    nth_error (vecs w') fc = Some C' /\
    length B' = length S' /\
    length S' = length C' /\
    0 <= length C' <= length [3#1]%Q /\
    ((forall s, In s [9#10]%Q -> (s < 95#100)%Q) -> B' = [] /\ S' = [] /\ C' = []).
Proof.
  apply (filter_boxes_keeps_invariant scenario_world (95#100) 0 0 1
           [scenario_box] [9#10]%Q [3#1]%Q); reflexivity.
Defined.

(** ** [to_image_coords] *)

Lemma assign_col_map (c c' : column) (k : Q) (f : Box -> Box) (B : list Box) :
  assign_col c (map f B) (scale (map (get_col c') B) k) =
  map (fun b => set_col c (get_col c' b * k) (f b)) B.
Proof.
  induction B as [|b B IH]; simpl; [reflexivity|]. f_equal. exact IH.
Qed.

(** One line [box_coords[:, c] = boxes[:, c] * k], run when [box_coords] is
    the array allocated last, followed by the rest of the function. *)
Lemma column_step {A} (vs : list (list Q)) (ms : list (list Box))
  (cv : list line_cmd) (boxes : mref) (B : list Box) (f : Box -> Box)
  (c : column) (k : Q) (rest : M A) :
  nth_error ms boxes = Some B ->
  (v <- mat_getcol boxes c ;; mat_setcol (length ms) c (scale v k) ;;; rest)
    (mkWorld vs (ms ++ [map f B]) cv) =
  rest (mkWorld vs (ms ++ [map (fun b => set_col c (get_col c b * k) (f b)) B]) cv).
Proof.
  intros H. unfold mat_getcol, mat_setcol.
  assert (Hold : nth_error (mats (mkWorld vs (ms ++ [map f B]) cv)) boxes = Some B)
    by (simpl; now apply nth_error_old).
  assert (Hnew : nth_error (mats (mkWorld vs (ms ++ [map f B]) cv)) (length ms)
                 = Some (map f B)) by (simpl; apply nth_error_new).
  unfold bind at 1. unfold bind at 1. rewrite (read_mat_run _ _ _ Hold).
  unfold ret at 1. unfold bind at 1.
  rewrite (bind_ok _ _ _ _ _ (read_mat_run _ _ _ Hnew)).
  unfold scale at 1. rewrite !length_map, Nat.eqb_refl.
  unfold write_mat. rewrite Hnew. simpl.
  rewrite list_update_new. fold (scale (map (get_col c) B) k).
  rewrite assign_col_map. reflexivity.
Qed.

Lemma to_image_coords_run (w : world) (boxes : mref) (height width : Q)
  (B : list Box) :
  nth_error (mats w) boxes = Some B ->
  to_image_coords boxes height width w =
    (mkWorld (vecs w) (mats w ++ [map (pixel_box height width) B]) (canvas w),
     inr (length (mats w))).
Proof.
  intros H. unfold to_image_coords.
  assert (Hz : zeros_like boxes w =
               (mkWorld (vecs w) (mats w ++ [map (fun _ => zero_box) B]) (canvas w),
                inr (length (mats w)))).
  { unfold zeros_like. rewrite (bind_ok _ _ _ _ _ (read_mat_run _ _ _ H)).
    reflexivity. }
  rewrite (bind_ok _ _ _ _ _ Hz).
  do 4 rewrite (column_step _ _ _ _ _ _ _ _ _ H).
  reflexivity.
Qed.

Example to_image_coords_scenario_3 :
  to_image_coords 0 600 1000 scenario_3_world =
    (mkWorld [] [[scenario_3_box]; [mkBox (600#2) (1000#4) 600 (3000#4)]] [],
     inr 1).
Proof. reflexivity. Qed.

(** C2: for every array of boxes and every height and width,
    [to_image_coords] returns a new array of the same length whose row [i]
    is row [i] of the input with components 0 and 2 multiplied by [height]
    and components 1 and 3 multiplied by [width], each component staying in
    its place; the returned reference is fresh and every array of the input
    store, [boxes] included, is unchanged.  (The witness below is the spec's
    scenario 3: (0.5, 0.25, 1.0, 0.75) with height 600 and width 1000 gives
    (300, 250, 600, 750).) *)
Theorem to_image_coords_scales :
  forall (w : world) (boxes : mref) (height width : Q) (B : list Box),
    nth_error (mats w) boxes = Some B ->
    exists (w' : world) (box_coords : mref) (P : list Box),
      to_image_coords boxes height width w = (w', inr box_coords) /\
      nth_error (mats w') box_coords = Some P /\
      length P = length B /\
      (forall i b, nth_error B i = Some b ->
                   nth_error P i =
                     Some (mkBox (col0 b * height) (col1 b * width)
                                 (col2 b * height) (col3 b * width))) /\
      nth_error (mats w) box_coords = None /\
      unchanged w w'.
Proof.
  intros w boxes height width B H.
  eexists _, _, _. split; [apply (to_image_coords_run w boxes height width B H)|].
  simpl. split; [apply nth_error_new|].
  split; [apply length_map|]. split.
  { intros i b Hb. now rewrite nth_error_map, Hb. }
  split; [apply nth_error_fresh|].
  pose proof (unchanged_alloc w [] [map (pixel_box height width) B]) as U.
  now rewrite app_nil_r in U.
Qed.

Lemma to_image_coords_scales_witness :
  exists (w' : world) (box_coords : mref) (p : Box),
    to_image_coords 0 600 1000 scenario_3_world = (w', inr box_coords) /\
    nth_error (mats w') box_coords = Some [p] /\
    Box_eq p (mkBox 300 250 600 750) /\
    nth_error (mats w') 0 = Some [scenario_3_box].
Proof.
  destruct (to_image_coords_scales scenario_3_world 0 600 1000 [scenario_3_box]
              eq_refl)
    as (w' & r & P & Hrun & HP & Hlen & Hrows & _ & Hsame).
  specialize (Hrows 0 scenario_3_box eq_refl).
  destruct P as [|p [|q P]]; try discriminate Hlen.
  exists w', r, p. split; [exact Hrun|]. split; [exact HP|]. split.
  - simpl in Hrows. injection Hrows as ->. repeat split; reflexivity.
  - destruct Hsame as (_ & Hm & _). apply Hm. reflexivity.
Defined.

Lemma assign_col_map_fl (fl : Q -> Q) (c c' : column) (k : Q) (f : Box -> Box)
  (B : list Box) :
  assign_col c (map f B) (scale_fl fl (map (get_col c') B) k) =
  map (fun b => set_col c (fl (get_col c' b * k)%Q) (f b)) B.
Proof.
  induction B as [|b B IH]; simpl; [reflexivity|]. f_equal. exact IH.
Qed.

Lemma column_step_fl {A} (fl : Q -> Q) (vs : list (list Q)) (ms : list (list Box))
  (cv : list line_cmd) (boxes : mref) (B : list Box) (f : Box -> Box)
  (c : column) (k : Q) (rest : M A) :
  nth_error ms boxes = Some B ->
  (v <- mat_getcol boxes c ;; mat_setcol (length ms) c (scale_fl fl v k) ;;; rest)
    (mkWorld vs (ms ++ [map f B]) cv) =
  rest (mkWorld vs
          (ms ++ [map (fun b => set_col c (fl (get_col c b * k)%Q) (f b)) B]) cv).
Proof.
  intros H. unfold mat_getcol, mat_setcol.
  assert (Hold : nth_error (mats (mkWorld vs (ms ++ [map f B]) cv)) boxes = Some B)
    by (simpl; now apply nth_error_old).
  assert (Hnew : nth_error (mats (mkWorld vs (ms ++ [map f B]) cv)) (length ms)
                 = Some (map f B)) by (simpl; apply nth_error_new).
  unfold bind at 1. unfold bind at 1. rewrite (read_mat_run _ _ _ Hold).
  unfold ret at 1. unfold bind at 1.
  rewrite (bind_ok _ _ _ _ _ (read_mat_run _ _ _ Hnew)).
  unfold scale_fl at 1. rewrite !length_map, Nat.eqb_refl.
  unfold write_mat. rewrite Hnew. simpl.
  rewrite list_update_new. fold (scale_fl fl (map (get_col c) B) k).
  rewrite assign_col_map_fl. reflexivity.
Qed.

Lemma to_image_coords_fl_run (fl : Q -> Q) (w : world) (boxes : mref)
  (height width : Q) (B : list Box) :
  nth_error (mats w) boxes = Some B ->
  to_image_coords_fl fl boxes height width w =
    (mkWorld (vecs w) (mats w ++ [map (pixel_box_fl fl height width) B]) (canvas w),
     inr (length (mats w))).
Proof.
  intros H. unfold to_image_coords_fl.
  assert (Hz : zeros_like boxes w =
               (mkWorld (vecs w) (mats w ++ [map (fun _ => zero_box) B]) (canvas w),
                inr (length (mats w)))).
  { unfold zeros_like. rewrite (bind_ok _ _ _ _ _ (read_mat_run _ _ _ H)).
    reflexivity. }
  rewrite (bind_ok _ _ _ _ _ Hz).
  do 4 rewrite (column_step_fl fl _ _ _ _ _ _ _ _ _ H).
  reflexivity.
Qed.

Local Open Scope Q_scope.

(** One component of the round trip under rounding. *)
Lemma round_trip_component (fl fl' : Q -> Q) (u eta omega b h : Q) :
  rounds fl u eta omega -> rounds fl' u eta omega ->
  (0 <= u <= 1)%Q -> (0 <= eta <= 1)%Q -> (3 <= omega)%Q ->
  (0 <= b <= 1)%Q -> (1 <= h <= omega)%Q ->
  (Qabs (fl' (fl (b * h) / h) - b) <= 3 * u + 3 * eta)%Q.
Proof.
  intros Hfl Hfl' [Hu0 Hu1] [He0 He1] Hom [Hb0 Hb1] [Hh1 Hh2].
  assert (Hbh : (0 <= b * h)%Q) by nra.
  assert (H1 : (Qabs (fl (b * h) - b * h) <= u * Qabs (b * h) + eta)%Q).
  { apply Hfl. rewrite Qabs_pos by exact Hbh. nra. }
  rewrite (Qabs_pos (b * h) Hbh) in H1.
  set (p := fl (b * h)) in *.
  assert (Ht : (p / h * h == p)%Q).
  { field. intros E. lra. }
  set (t := (p / h)%Q) in *.
  apply Qabs_Qle_condition in H1. destruct H1 as [H1a H1b].
  assert (Huh : 0 <= u * h) by nra.
  assert (A1 : u * (b * h) <= u * h) by nra.
  assert (A2 : eta <= eta * h) by nra.
  assert (Htb1 : t - b <= u + eta).
  { destruct (Qlt_le_dec (u + eta) (t - b)) as [Hgt|Hle]; [exfalso | exact Hle].
    assert (0 <= (t - b - (u + eta)) * (h - 1)) by (apply Qmult_le_0_compat; lra).
    nra. }
  assert (Htb2 : - (u + eta) <= t - b).
  { destruct (Qlt_le_dec (t - b) (- (u + eta))) as [Hlt|Hle]; [exfalso | exact Hle].
    assert (0 <= (- (u + eta) - (t - b)) * (h - 1)) by (apply Qmult_le_0_compat; lra).
    nra. }
  assert (Hat : (Qabs t <= 1 + u + eta)%Q).
  { apply Qabs_Qle_condition. split; lra. }
  assert (H2 : (Qabs (fl' t - t) <= u * Qabs t + eta)%Q).
  { apply Hfl'. lra. }
  pose proof (Qabs_nonneg t) as Hat0.
  set (a := Qabs t) in *.
  apply Qabs_Qle_condition in H2. destruct H2 as [H2a H2b].
  apply Qabs_Qle_condition. split; nra.
Qed.

Lemma quantize_rounds (omega : Q) : rounds quantize 0 (1#1024) omega.
Proof.
  intros x _. unfold quantize.
  pose proof (Qfloor_le (x * 1024)) as Hlo.
  pose proof (Qlt_floor (x * 1024)) as Hhi.
  rewrite inject_Z_plus in Hhi.
  assert (E : (Qfloor (x * 1024) # 1024 == inject_Z (Qfloor (x * 1024)) * (1#1024))%Q).
  { unfold Qeq. simpl. lia. }
  rewrite E. set (F := inject_Z (Qfloor (x * 1024))) in *.
  change (inject_Z 1) with 1%Q in Hhi.
  apply Qabs_Qle_condition. split; lra.
Qed.

Local Open Scope nat_scope.

(** C8: the round-trip law.  Over the rationals, for positive [height] and
    [width], dividing every row of the result of [to_image_coords] by
    (height, width, height, width) gives back the rows of the input, exactly.
    Over floats, where each product and each quotient is rounded (relative
    error at most [u], absolute error at most [eta], no overflow up to
    [omega]), for boxes with components in [0,1] and a height and width of
    at least one pixel, the rows come back within the tolerance
    [3*u + 3*eta] in each component. *)
Theorem to_image_coords_round_trip :
  forall (w : world) (boxes : mref) (height width : Q) (B : list Box),
    nth_error (mats w) boxes = Some B ->
    ((0 < height)%Q -> (0 < width)%Q ->
     exists (w' : world) (box_coords : mref) (P : list Box),
       to_image_coords boxes height width w = (w', inr box_coords) /\
       nth_error (mats w') box_coords = Some P /\
       Forall2 Box_eq (map (divide_by_geometry height width) P) B) /\
    (forall (fl fl' : Q -> Q) (u eta omega : Q),
        rounds fl u eta omega -> rounds fl' u eta omega ->
        (0 <= u <= 1)%Q -> (0 <= eta <= 1)%Q -> (3 <= omega)%Q ->
        (1 <= height <= omega)%Q -> (1 <= width <= omega)%Q ->
        Forall normalized B ->
        exists (w' : world) (box_coords : mref) (P : list Box),
          to_image_coords_fl fl boxes height width w = (w', inr box_coords) /\
          nth_error (mats w') box_coords = Some P /\
          Forall2 (Box_close (3 * u + 3 * eta))
            (map (divide_by_geometry_fl fl' height width) P) B).
Proof.
  intros w boxes height width B H. split.
  - intros Hh Hw.
    eexists _, _, _. split; [apply (to_image_coords_run w boxes height width B H)|].
    simpl. split; [apply nth_error_new|].
    assert (Hh' : ~ (height == 0)%Q) by (intros E; rewrite E in Hh; discriminate).
    assert (Hw' : ~ (width == 0)%Q) by (intros E; rewrite E in Hw; discriminate).
    clear H. induction B as [|b B IH]; simpl; constructor; [|exact IH].
    unfold Box_eq, divide_by_geometry, pixel_box; simpl.
    repeat split; apply Qdiv_mult_l; assumption.
  - intros fl fl' u eta omega Hfl Hfl' Hu He Hom Hh Hw Hn.
    eexists _, _, _.
    split; [apply (to_image_coords_fl_run fl w boxes height width B H)|].
    cbn [mats]. split; [apply nth_error_new|].
    clear H. induction Hn as [|b B Hb Hn IH]; simpl; constructor; [|exact IH].
    destruct Hb as (H0 & H1 & H2 & H3).
    unfold Box_close, divide_by_geometry_fl, pixel_box_fl.
    cbn [col0 col1 col2 col3].
    repeat split;
      apply (round_trip_component fl fl' u eta omega); assumption.
Qed.

Lemma to_image_coords_round_trip_witness :
  (exists (w' : world) (box_coords : mref) (P : list Box),
      to_image_coords 0 600 1000 scenario_3_world = (w', inr box_coords) /\
      nth_error (mats w') box_coords = Some P /\
      Forall2 Box_eq (map (divide_by_geometry 600 1000) P) [scenario_3_box]) /\
  (exists (w' : world) (box_coords : mref) (P : list Box),
      to_image_coords_fl quantize 0 600 1000 scenario_3_world
        = (w', inr box_coords) /\
      nth_error (mats w') box_coords = Some P /\
      Forall2 (Box_close (3 * 0 + 3 * (1#1024)))
        (map (divide_by_geometry_fl quantize 600 1000) P) [scenario_3_box]).
Proof.
  destruct (to_image_coords_round_trip scenario_3_world 0 600 1000
              [scenario_3_box] eq_refl) as [Hexact Hfloat].
  split.
  - apply Hexact; reflexivity.
  - apply (Hfloat quantize quantize 0%Q (1#1024)%Q 1000%Q).
    + apply quantize_rounds.
    + apply quantize_rounds.
    + split; vm_compute; discriminate.
    + split; vm_compute; discriminate.
    + vm_compute. discriminate.
    + split; vm_compute; discriminate.
    + split; vm_compute; discriminate.
    + constructor; [|constructor]. repeat split; vm_compute; discriminate.
Defined.

(** ** Errors of [filter_boxes] and [to_image_coords] *)

(** C3, as stated, fails: with the threshold 2, outside [0,1], and with a
    [scores] array longer than [boxes] and [classes], the preconditions are
    violated and [filter_boxes] returns normally. *)
Lemma filter_boxes_accepts_invalid_input :
  (~ valid_input 2 [scenario_box] [9#10]%Q [3#1]%Q /\
   ~ raises (filter_boxes 2 0 0 1) scenario_world) /\
  (~ valid_input (8#10) [scenario_box] [9#10; 95#100]%Q [3#1]%Q /\
   ~ raises (filter_boxes (8#10) 0 0 1) long_scores_world).
Proof.
  split; split.
  - intros (_ & _ & _ & H). apply H. reflexivity.
  - intros [e H]. discriminate H.
  - intros (H & _). discriminate H.
  - intros [e H]. discriminate H.
Qed.

(** C3, amended: neither function validates its input.  [filter_boxes]
    returns whenever its indexing stays in range, which is the case for
    every batch of three arrays of one length, whatever the threshold, in
    [0,1] or not; otherwise it raises [IndexError] and leaves the store as
    it was.  [to_image_coords] receives neither batch nor threshold and
    returns for every array of boxes. *)
Theorem filter_boxes_errors :
  forall (w : world) (min_score : Q) (boxes : mref) (scores classes : vref)
         (B : list Box) (S C : list Q),
    nth_error (mats w) boxes = Some B ->
    nth_error (vecs w) scores = Some S ->
    nth_error (vecs w) classes = Some C ->
    (if indexable min_score B S C
     then exists w' r, filter_boxes min_score boxes scores classes w = (w', inr r)
     else filter_boxes min_score boxes scores classes w = (w, inl IndexError)) /\
    (length B = length S -> length S = length C ->
     indexable min_score B S C = true) /\
    (forall height width,
        exists w' r, to_image_coords boxes height width w = (w', inr r)).
Proof.
  intros w min_score boxes scores classes B S C HB HS HC.
  split; [|split].
  - unfold indexable.
    destruct (Nat.leb_spec (length C) (length S)) as [Hlen|Hlen]; simpl.
    + destruct (forallb (fun i => i <? length B)
                  (retained min_score S (length C))) eqn:E.
      * rewrite forallb_forall in E. eexists _, _.
        apply (filter_boxes_run w min_score boxes scores classes B S C HB HS HC Hlen).
        intros i Hi. apply Nat.ltb_lt. now apply E.
      * apply (filter_boxes_short_boxes w min_score boxes scores classes B S C
                 HB HS HC Hlen).
        apply not_true_iff_false in E.
        destruct (Exists_dec (fun i => length B <= i)
                    (retained min_score S (length C))
                    (fun i => le_dec (length B) i)) as [Hex|Hno].
        -- apply Exists_exists in Hex. exact Hex.
        -- exfalso. apply E. apply forallb_forall. intros i Hi.
           apply Nat.ltb_lt. rewrite Exists_exists in Hno.
           destruct (Nat.lt_ge_cases i (length B)); [assumption|].
           exfalso. apply Hno. eauto.
    + apply filter_boxes_short_scores with (S := S) (C := C); assumption.
  - intros H1 H2. unfold indexable. apply andb_true_iff. split.
    + apply Nat.leb_le. lia.
    + apply forallb_forall. intros i Hi. apply Nat.ltb_lt.
      apply retained_spec in Hi. lia.
  - intros height width. eexists _, _.
    apply (to_image_coords_run w boxes height width B HB).
Qed.

Lemma filter_boxes_errors_witness :
  (if indexable 2 [scenario_box] [] [3#1]%Q
   then exists w' r, filter_boxes 2 0 0 1 short_scores_world = (w', inr r)
   else filter_boxes 2 0 0 1 short_scores_world
        = (short_scores_world, inl IndexError)) /\
  (length [scenario_box] = length (@nil Q) ->
   length (@nil Q) = length [3#1]%Q ->
   indexable 2 [scenario_box] [] [3#1]%Q = true) /\
  (forall height width,
      exists w' r, to_image_coords 0 height width short_scores_world = (w', inr r)).
Proof.
  apply (filter_boxes_errors short_scores_world 2 0 0 1
           [scenario_box] [] [3#1]%Q); reflexivity.
Defined.

(** ** [draw_boxes] *)

Lemma getitem_middle {A} (pre post : list A) (x : A) :
  getitem (pre ++ x :: post) (length pre) = inr x.
Proof.
  unfold getitem. rewrite nth_error_app2, Nat.sub_diag by lia. reflexivity.
Qed.

Lemma py_int_truncates (x : Q) : truncates x (int_part x).
Proof.
  destruct x as [n d]. unfold truncates, int_part, Qle, Qlt. simpl.
  pose proof (Z.quot_rem' n (Zpos d)) as E.
  pose proof (Pos2Z.is_pos d) as Hd.
  split; intros H; rewrite Z.mul_1_r in *.
  - pose proof (Z.rem_bound_pos n (Zpos d) H Hd). split; nia.
  - pose proof (Z.rem_bound_pos_neg n (Zpos d) Hd H). split; nia.
Qed.

Lemma py_int_inject_Z (z : Z) : int_part (inject_Z z) = z.
Proof. unfold int_part. simpl. apply Z.quot_1_r. Qed.

Lemma class_color_finite (COLOR_LIST : list string) (q : Q) :
  class_color COLOR_LIST q = list_getitem COLOR_LIST (int_part q).
Proof. reflexivity. Qed.

Section DrawingProperties.

Variable COLOR_LIST : list string.
Variable thickness : Z.

Lemma draw_loop (vs : list (list Q)) (ms : list (list Box))
  (boxes : mref) (classes : vref) (B : list Box) (C : list Q) :
  nth_error ms boxes = Some B ->
  nth_error vs classes = Some C ->
  forall (rows pre : list Box) (cv : list line_cmd),
    B = pre ++ rows ->
    for_in (seq (length pre) (length rows)) (draw_one COLOR_LIST boxes classes thickness) tt
      (mkWorld vs ms cv) =
    (mkWorld vs ms (cv ++ fst (draw_trace COLOR_LIST thickness rows C (length pre))),
     snd (draw_trace COLOR_LIST thickness rows C (length pre))).
Proof.
  intros HB HC. induction rows as [|row rows IH]; intros pre cv E; simpl.
  - rewrite app_nil_r. reflexivity.
  - unfold draw_one at 1. unfold bind at 1 2.
    rewrite (mat_getitem_run (mkWorld vs ms cv) boxes B _ HB).
    rewrite E at 1. rewrite getitem_middle.
    unfold bind at 1.
    rewrite (vec_getitem_run (mkWorld vs ms cv) classes C _ HC).
    destruct (getitem C (length pre)) as [e|cls]; simpl.
    { rewrite app_nil_r. reflexivity. }
    unfold bind at 1. unfold lift at 1.
    destruct (class_color COLOR_LIST cls) as [e|color]; simpl.
    { rewrite app_nil_r. reflexivity. }
    unfold draw_line. simpl.
    specialize (IH (pre ++ [row])
                  (cv ++ [mkLine (box_polyline row) thickness color])).
    rewrite length_app, Nat.add_1_r in IH. rewrite IH.
    + destruct (draw_trace COLOR_LIST thickness rows C (S (length pre))) as [ls r]. simpl.
      now rewrite <- app_assoc.
    + rewrite <- app_assoc. exact E.
Qed.

(** The run of [draw_boxes]: the arrays are left alone, the lines of
    [draw_trace] are added to the image. *)
Lemma draw_boxes_run (w : world) (boxes : mref) (classes : vref)
  (B : list Box) (C : list Q) :
  nth_error (mats w) boxes = Some B ->
  nth_error (vecs w) classes = Some C ->
  draw_boxes COLOR_LIST boxes classes thickness w =
    (mkWorld (vecs w) (mats w) (canvas w ++ fst (draw_trace COLOR_LIST thickness B C 0)),
     snd (draw_trace COLOR_LIST thickness B C 0)).
Proof.
  intros HB HC. unfold draw_boxes.
  rewrite (bind_ok _ _ _ _ _ (mat_len_run _ _ _ HB)).
  destruct w as [vs ms cv]. simpl in *.
  exact (draw_loop vs ms boxes classes B C HB HC B [] cv eq_refl).
Qed.

(** Every line of the trace belongs to the row of the same position. *)
Lemma draw_trace_line (rows : list Box) (C : list Q) :
  forall (a i : nat) (line : line_cmd),
    nth_error (fst (draw_trace COLOR_LIST thickness rows C a)) i = Some line ->
    exists row cls,
      nth_error rows i = Some row /\
      nth_error C (a + i) = Some cls /\
      class_color COLOR_LIST cls = inr (line_fill line) /\
      line_xy line = box_polyline row /\
      line_width line = thickness.
Proof.
  induction rows as [|row rows IH]; intros a i line H; simpl in H.
  - destruct i; discriminate H.
  - unfold getitem in H.
    destruct (nth_error C a) as [cls|] eqn:EC; [|destruct i; discriminate H].
    destruct (class_color COLOR_LIST cls) as [e|color] eqn:Ecol;
      [destruct i; discriminate H|].
    destruct (draw_trace COLOR_LIST thickness rows C (S a)) as [ls r] eqn:Et. simpl in H.
    destruct i as [|i]; simpl in H.
    + injection H as <-. exists row, cls. rewrite Nat.add_0_r. simpl. auto.
    + specialize (IH (S a) i line). rewrite Et in IH. simpl in IH.
      destruct (IH H) as (row' & cls' & H1 & H2 & H3 & H4 & H5).
      exists row', cls'. rewrite Nat.add_succ_r. simpl. auto.
Qed.

(** A loop that ends normally has drawn one line per row. *)
Lemma draw_trace_complete (rows : list Box) (C : list Q) :
  forall a : nat,
    snd (draw_trace COLOR_LIST thickness rows C a) = inr tt ->
    length (fst (draw_trace COLOR_LIST thickness rows C a)) = length rows.
Proof.
  induction rows as [|row rows IH]; intros a H; simpl in *; [reflexivity|].
  destruct (getitem C a) as [e|cls]; [discriminate H|].
  destruct (class_color COLOR_LIST cls) as [e|color]; [discriminate H|].
  specialize (IH (S a)).
  destruct (draw_trace COLOR_LIST thickness rows C (S a)) as [ls r]. simpl in *.
  now rewrite IH.
Qed.

End DrawingProperties.

Local Open Scope string_scope.
Local Open Scope list_scope.

(** C4, as stated, fails: with two colours and class 2 the claimed index
    2 % 2 = 0 is in range, but the code looks up index 2 itself and raises
    [IndexError]; [draw_boxes] stops there and draws nothing. *)
Lemma class_color_does_not_wrap :
  nth_error two_colors (Z.to_nat (2 mod Z.of_nat (length two_colors)))
    = Some "aliceblue" /\
  class_color two_colors (inject_Z 2) = inl IndexError /\
  draw_boxes two_colors 0 1 default_thickness class_2_world
    = (class_2_world, inl IndexError).
Proof. repeat split. Qed.

(** C4, amended: [draw_boxes] looks the colour up at index [class_id]
    itself, with no modulo.  For [0 <= class_id < len(COLOR_LIST)] this is
    the colour at [class_id], which is also index
    [class_id % len(COLOR_LIST)]; for [class_id >= len(COLOR_LIST)] the
    lookup raises [IndexError]. *)
Theorem class_color_in_range :
  forall (COLOR_LIST : list string) (class_id : Z),
    (0 <= class_id)%Z ->
    ((class_id < Z.of_nat (length COLOR_LIST))%Z ->
     class_color COLOR_LIST (inject_Z class_id)
       = inr (nth (Z.to_nat class_id) COLOR_LIST "") /\
     (class_id mod Z.of_nat (length COLOR_LIST))%Z = class_id) /\
    ((Z.of_nat (length COLOR_LIST) <= class_id)%Z ->
     class_color COLOR_LIST (inject_Z class_id) = inl IndexError).
Proof.
  intros CL class_id H0. rewrite class_color_finite, py_int_inject_Z.
  unfold list_getitem.
  destruct (Z.leb_spec 0 class_id) as [_|Hneg]; [|lia].
  split; intros H.
  - split; [|apply Z.mod_small; lia].
    apply getitem_nth. lia.
  - apply getitem_out. lia.
Qed.

Lemma class_color_in_range_witness :
  ((1 < Z.of_nat (length two_colors))%Z ->
   class_color two_colors (inject_Z 1) = inr (nth (Z.to_nat 1) two_colors "") /\
   (1 mod Z.of_nat (length two_colors))%Z = 1%Z) /\
  ((Z.of_nat (length two_colors) <= 1)%Z ->
   class_color two_colors (inject_Z 1) = inl IndexError).
Proof.
  apply (class_color_in_range two_colors 1). vm_compute. discriminate.
Defined.

(** C9, as stated, fails: for the box (top, left, bottom, right) =
    (10, 20, 30, 40) the line drawn starts at (left, bottom) = (20, 30) and
    goes on to (left, top), whereas the stated order starts at
    (left, top) = (20, 10). *)
Lemma draw_boxes_polyline_order :
  draw_boxes two_colors 0 0 default_thickness pixel_world =
    (mkWorld [[0#1]]%Q [[pixel_box_10_20_30_40]]
       [mkLine [(20, 30); (20, 10); (40, 10); (40, 30); (20, 30)]%Q
          default_thickness "aliceblue"],
     inr tt) /\
  spec_polyline pixel_box_10_20_30_40
    = [(20, 10); (20, 30); (40, 30); (40, 10); (20, 10)]%Q /\
  box_polyline pixel_box_10_20_30_40 <> spec_polyline pixel_box_10_20_30_40.
Proof. repeat split. discriminate. Qed.

(** C9, amended: [draw_boxes] binds component 0 (top) to [bot] and component
    2 (bottom) to [top], so for every pixel box (top, left, bottom, right)
    the line it draws is the closed outline
    (left,bottom) -> (left,top) -> (right,top) -> (right,bottom) ->
    (left,bottom): the four corners of the box, starting at (left, bottom).
    The lines are added to the image in the order of the boxes, one per box
    when the call returns. *)
Theorem draw_boxes_polyline :
  forall (COLOR_LIST : list string) (thickness : Z) (w w' : world)
         (boxes : mref) (classes : vref) (B : list Box) (C : list Q)
         (r : exn + unit),
    nth_error (mats w) boxes = Some B ->
    nth_error (vecs w) classes = Some C ->
    draw_boxes COLOR_LIST boxes classes thickness w = (w', r) ->
    exists lines : list line_cmd,
      canvas w' = canvas w ++ lines /\
      (r = inr tt -> length lines = length B) /\
      (forall i line,
          nth_error lines i = Some line ->
          exists top left' bottom right',
            nth_error B i = Some (mkBox top left' bottom right') /\
            line_xy line =
              [(left', bottom); (left', top); (right', top);
               (right', bottom); (left', bottom)]).
Proof.
  intros CL th w w' boxes classes B C r HB HC Hrun.
  rewrite (draw_boxes_run CL th w boxes classes B C HB HC) in Hrun.
  injection Hrun as <- <-.
  exists (fst (draw_trace CL th B C 0)). split; [reflexivity|]. split.
  - apply draw_trace_complete.
  - intros i line Hl.
    destruct (draw_trace_line CL th B C 0 i line Hl)
      as (row & cls & Hrow & _ & _ & Hxy & _).
    destruct row as [t l b rt]. exists t, l, b, rt.
    split; [exact Hrow | exact Hxy].
Qed.

Lemma draw_boxes_polyline_witness :
  exists lines : list line_cmd,
    canvas (mkWorld [[0#1]]%Q [[pixel_box_10_20_30_40]]
              [mkLine [(20, 30); (20, 10); (40, 10); (40, 30); (20, 30)]%Q
                 default_thickness "aliceblue"])
      = canvas pixel_world ++ lines /\
    (@inr exn unit tt = inr tt -> length lines = length [pixel_box_10_20_30_40]) /\
    (forall i line,
        nth_error lines i = Some line ->
        exists top left' bottom right',
          nth_error [pixel_box_10_20_30_40] i
            = Some (mkBox top left' bottom right') /\
          line_xy line =
            [(left', bottom); (left', top); (right', top);
             (right', bottom); (left', bottom)]).
Proof.
  apply (draw_boxes_polyline two_colors default_thickness pixel_world _ 0 0
           [pixel_box_10_20_30_40] [0#1]%Q (inr tt)); reflexivity.
Defined.

Example draw_boxes_class_3_9 :
  draw_boxes five_colors 0 0 default_thickness class_3_9_world =
    (mkWorld [[39#10]]%Q [[pixel_box_10_20_30_40]]
       [mkLine [(20, 30); (20, 10); (40, 10); (40, 30); (20, 30)]%Q
          default_thickness "aquamarine"],
     inr tt).
Proof. reflexivity. Qed.

Lemma truncates_unique (x : Q) (z : Z) : truncates x z -> z = int_part x.
Proof.
  intros Hz. pose proof (py_int_truncates x) as Ht.
  destruct x as [n d]. unfold truncates, Qle, Qlt in *. simpl in *.
  rewrite !Z.mul_1_r in *.
  destruct Hz as [Hz1 Hz2]. destruct Ht as [Ht1 Ht2].
  destruct (Z.le_ge_cases 0 n) as [H|H].
  - specialize (Hz1 H). specialize (Ht1 H). nia.
  - specialize (Hz2 H). specialize (Ht2 H). nia.
Qed.

Lemma list_getitem_returns {A} (l : list A) (d : A) (z : Z) :
  (- Z.of_nat (length l) <= z < Z.of_nat (length l))%Z <->
  exists x, list_getitem l z = inr x.
Proof.
  unfold list_getitem. split.
  - intros H. destruct (Z.leb_spec 0 z).
    + exists (nth (Z.to_nat z) l d). apply getitem_nth. lia.
    + destruct (Z.leb_spec (- Z.of_nat (length l)) z); [|lia].
      exists (nth (Z.to_nat (Z.of_nat (length l) + z)) l d). apply getitem_nth. lia.
  - intros [x H]. destruct (Z.leb_spec 0 z).
    + destruct (Nat.lt_ge_cases (Z.to_nat z) (length l)) as [Hl|Hl]; [lia|].
      rewrite (getitem_out l _ Hl) in H. discriminate.
    + destruct (Z.leb_spec (- Z.of_nat (length l)) z); [lia | discriminate].
Qed.

Lemma has_color_iff (COLOR_LIST : list string) (cls : Q) :
  has_color COLOR_LIST cls = true <-> in_palette COLOR_LIST cls.
Proof.
  unfold has_color, in_palette. rewrite class_color_finite. split.
  - intros H. exists (int_part cls). split; [apply py_int_truncates|].
    apply (list_getitem_returns COLOR_LIST ""%string).
    destruct (list_getitem COLOR_LIST (int_part cls)); [discriminate | eauto].
  - intros [z [Hz Hr]]. rewrite (truncates_unique cls z Hz) in Hr.
    apply (list_getitem_returns COLOR_LIST ""%string) in Hr.
    destruct Hr as [x ->]. reflexivity.
Qed.

Lemma draw_trace_paints (COLOR_LIST : list string) (thickness : Z) (C : list Q) :
  forall (rows : list Box) (a : nat),
    (forall i, i < length rows ->
               exists cls color, nth_error C (a + i) = Some cls /\
                                 class_color COLOR_LIST cls = inr color) ->
    snd (draw_trace COLOR_LIST thickness rows C a) = inr tt.
Proof.
  induction rows as [|row rows IH]; intros a Hall; [reflexivity|]. simpl.
  destruct (Hall 0) as (cls & color & Hc & Hcol); [simpl; lia|].
  rewrite Nat.add_0_r in Hc. unfold getitem. rewrite Hc, Hcol.
  specialize (IH (Datatypes.S a)).
  destruct (draw_trace COLOR_LIST thickness rows C (Datatypes.S a)) as [ls r].
  simpl in *. apply IH. intros i Hi.
  destruct (Hall (Datatypes.S i)) as (c & y & H1 & H2); [simpl; lia|].
  exists c, y. rewrite Nat.add_succ_r in H1. auto.
Qed.

(** C10, as stated, fails: a class value can be a floating-point value
    that has no integer part; on NaN [int()] raises [ValueError] and on an
    infinity [OverflowError], so the lookup fails. *)
Lemma class_color_of_nan :
  class_color five_colors NaN = inl ValueError /\
  class_color five_colors PosInf = inl OverflowError /\
  class_color five_colors NegInf = inl OverflowError.
Proof. repeat split. Qed.

(** C10, amended: for a classes array of finite values, the colour of the
    line drawn for box [i] is looked up at the integer [z] obtained from the
    class value by truncation toward zero ([z <= cls < z + 1] for
    [cls >= 0]).  Whenever these integers are indices of the colour list,
    [draw_boxes] returns and line [i] has colour [COLOR_LIST[z]], so that a
    class value 3.9 selects the colour of index 3, neither failing nor
    rounding to 4.  On a class value NaN the conversion raises [ValueError],
    on an infinite one [OverflowError]. *)
Theorem draw_boxes_truncates_class :
  forall (COLOR_LIST : list string),
    (forall (thickness : Z) (w : world) (boxes : mref) (classes : vref)
            (B : list Box) (C : list Q),
        nth_error (mats w) boxes = Some B ->
        nth_error (vecs w) classes = Some C ->
        (forall i, i < length B ->
                   exists cls z,
                     nth_error C i = Some cls /\ truncates cls z /\
                     (0 <= z < Z.of_nat (length COLOR_LIST))%Z) ->
        exists lines : list line_cmd,
          draw_boxes COLOR_LIST boxes classes thickness w
            = (mkWorld (vecs w) (mats w) (canvas w ++ lines), inr tt) /\
          length lines = length B /\
          (forall i cls z,
              i < length B -> nth_error C i = Some cls -> truncates cls z ->
              exists line, nth_error lines i = Some line /\
                           line_fill line = nth (Z.to_nat z) COLOR_LIST "")) /\
    class_color COLOR_LIST NaN = inl ValueError /\
    class_color COLOR_LIST PosInf = inl OverflowError /\
    class_color COLOR_LIST NegInf = inl OverflowError.
Proof.
  intros CL. split; [|repeat split].
  intros th w boxes classes B C HB HC Hall.
  rewrite (draw_boxes_run CL th w boxes classes B C HB HC).
  assert (Hcolor : forall cls z,
             truncates cls z -> (0 <= z < Z.of_nat (length CL))%Z ->
             class_color CL cls = inr (nth (Z.to_nat z) CL "")).
  { intros cls z Hz Hr. rewrite class_color_finite, <- (truncates_unique cls z Hz).
    unfold list_getitem. destruct (Z.leb_spec 0 z); [|lia].
    apply getitem_nth. lia. }
  assert (Hok : snd (draw_trace CL th B C 0) = inr tt).
  { apply draw_trace_paints. intros i Hi.
    destruct (Hall i Hi) as (cls & z & Hc & Hz & Hr).
    exists cls, (nth (Z.to_nat z) CL ""). split; [exact Hc | now apply Hcolor]. }
  exists (fst (draw_trace CL th B C 0)). rewrite Hok.
  split; [reflexivity|]. split; [now apply draw_trace_complete|].
  intros i cls z Hi Hcls Hz.
  destruct (Hall i Hi) as (cls' & z' & Hcls' & Hz' & Hr).
  simpl in Hcls'. rewrite Hcls in Hcls'. injection Hcls' as <-.
  rewrite (truncates_unique cls z Hz), <- (truncates_unique cls z' Hz').
  pose proof (draw_trace_complete CL th B C 0 Hok) as Hn.
  destruct (nth_error (fst (draw_trace CL th B C 0)) i) as [line|] eqn:El;
    [|apply nth_error_None in El; lia].
  exists line. split; [reflexivity|].
  destruct (draw_trace_line CL th B C 0 i line El)
    as (row & c & _ & Hc & Hcol & _ & _).
  simpl in Hc. rewrite Hcls in Hc. injection Hc as <-.
  rewrite (Hcolor cls z' Hz' Hr) in Hcol. now injection Hcol.
Qed.

Lemma draw_boxes_truncates_class_witness :
  exists lines : list line_cmd,
    draw_boxes five_colors 0 0 default_thickness class_3_9_world
      = (mkWorld (vecs class_3_9_world) (mats class_3_9_world)
           (canvas class_3_9_world ++ lines), inr tt) /\
    length lines = length [pixel_box_10_20_30_40] /\
    (forall i cls z,
        i < length [pixel_box_10_20_30_40] ->
        nth_error [39#10]%Q i = Some cls -> truncates cls z ->
        exists line, nth_error lines i = Some line /\
                     line_fill line = nth (Z.to_nat z) five_colors "").
Proof.
  apply (proj1 (draw_boxes_truncates_class five_colors) default_thickness
           class_3_9_world 0 0 [pixel_box_10_20_30_40] [39#10]%Q);
    [reflexivity | reflexivity |].
  intros i Hi. exists (39#10)%Q, 3%Z.
  destruct i as [|i]; [|simpl in Hi; lia].
  split; [reflexivity|]. split; [|vm_compute; split; congruence].
  split; intros H; [split; vm_compute; congruence|].
  exfalso. vm_compute in H. apply H. reflexivity.
Defined.

(** ** Parameter counting *)

Local Open Scope N_scope.


(** Without input channel, or without output channel, the cell raises
    [ValueError] while the first block is added to the graph. *)
Lemma parameter_cell_raises (cin cout k h w : N) :
  cin = 0 \/ cout = 0 ->
  parameter_cell cin cout k h w = inl ValueError.
Proof.
  intros [-> | ->].
  - cbv -[N.mul N.add N.div]. reflexivity.
  - destruct cin; cbv -[N.mul N.add N.div]; reflexivity.
Qed.

(** The totals of the cell, for positive channel counts: every variable
    counted is a convolution kernel, a convolution bias, or a [gamma] or
    [beta]. *)
Lemma count_params_totals (cin cout k h w : N) :
  0 < cin -> 0 < cout ->
  total_vanilla_params (count_params cin cout k h w)
    = k * k * cin * cout + cout + 2 * cout /\
  total_mobile_params (count_params cin cout k h w)
    = (k * k * cin + cin * cout) + cout + (2 * cin + 2 * cout).
Proof.
  intros Hc Ho. destruct cin as [|p]; [lia|]. destruct cout as [|q]; [lia|].
  split; cbv -[N.mul N.add N.div N.eqb]; rewrite !N.mul_1_r;
    cbv -[N.mul N.add N.div]; lia.
Qed.

(** C5, as stated, fails: both blocks count the 512 bias parameters of
    their [tf.layers.conv2d], so neither total is the convolution weights
    plus batch-normalization terms, under either convention (2 or 4
    parameters per channel), and the reduction is not between 8.8 and
    8.9. *)
Lemma count_params_counts_bias :
  In ("vanilla/conv2d/bias:0", 512) (vanilla_params notebook_report) /\
  In ("mobile/conv2d/bias:0", 512) (mobile_params notebook_report) /\
  (forall bn, bn = 2 \/ bn = 4 ->
     total_vanilla_params notebook_report <> spec_vanilla_param_count bn 3 32 512) /\
  (forall bn, bn = 2 \/ bn = 4 ->
     total_mobile_params notebook_report <> spec_separable_param_count bn 3 32 512) /\
  (forall q, reduction notebook_report = Finite q -> ~ (88#10 <= q)%Q).
Proof.
  split; [vm_compute; tauto|]. split; [vm_compute; tauto|].
  split; [|split].
  - intros bn [-> | ->]; vm_compute; discriminate.
  - intros bn [-> | ->]; vm_compute; discriminate.
  - intros q H. vm_compute in H. injection H as <-.
    intros Hq. vm_compute in Hq. apply Hq. reflexivity.
Qed.

(** C5, amended: for kernel size 3, 32 input and 512 output channels the
    cell counts the trainable variables: in the vanilla block the
    3*3*32*512 = 147456 convolution weights, the 512 convolution biases and
    the 2*512 batch-normalization parameters [gamma] and [beta], 148992 in
    all; in the separable block the 3*3*32 + 32*512 = 16672 convolution
    weights, the 512 biases of the pointwise convolution and the
    2*32 + 2*512 batch-normalization parameters, 18272 in all.  The
    reduction it prints is 148992/18272, between 8.15 and 8.16; the ratio of
    the convolution weights alone, 147456/16672, lies between 8.84 and
    8.85. *)
Theorem count_params_notebook :
  (forall p, In p (vanilla_params notebook_report) <->
     p = ("vanilla/conv2d/kernel:0", 3 * 3 * 32 * 512) \/
     p = ("vanilla/conv2d/bias:0", 512) \/
     p = ("vanilla/batch_normalization/gamma:0", 512) \/
     p = ("vanilla/batch_normalization/beta:0", 512)) /\
  length (vanilla_params notebook_report) = 4%nat /\
  (forall p, In p (mobile_params notebook_report) <->
     p = ("mobile/Variable:0", 3 * 3 * 32 * 1) \/
     p = ("mobile/batch_normalization/gamma:0", 32) \/
     p = ("mobile/batch_normalization/beta:0", 32) \/
     p = ("mobile/conv2d/kernel:0", 1 * 1 * 32 * 512) \/
     p = ("mobile/conv2d/bias:0", 512) \/
     p = ("mobile/batch_normalization_1/gamma:0", 512) \/
     p = ("mobile/batch_normalization_1/beta:0", 512)) /\
  length (mobile_params notebook_report) = 7%nat /\
  total_vanilla_params notebook_report = 147456 + 512 + 2 * 512 /\
  total_vanilla_params notebook_report = 148992 /\
  total_mobile_params notebook_report = 16672 + 512 + (2 * 32 + 2 * 512) /\
  total_mobile_params notebook_report = 18272 /\
  reduction notebook_report = Finite (148992 # 18272) /\
  (815#100 < 148992 # 18272)%Q /\ (148992 # 18272 < 816#100)%Q /\
  (884#100 < 147456 # 16672)%Q /\ (147456 # 16672 < 885#100)%Q.
Proof.
  split; [|split; [reflexivity|]].
  { intros p. vm_compute. intuition congruence. }
  split; [|split; [reflexivity|]].
  { intros p. vm_compute. intuition congruence. }
  repeat split.
Qed.




(** * Further properties *)

Local Open Scope nat_scope.
Local Open Scope list_scope.

(** ** More on [filter_boxes] *)

Lemma nth_error_newer {A} (l : list A) (x y : A) :
  nth_error ((l ++ [x]) ++ [y]) (Datatypes.S (length l)) = Some y.
Proof.
  replace (Datatypes.S (length l)) with (length (l ++ [x]))
    by (rewrite length_app; simpl; lia).
  apply nth_error_new.
Qed.

Lemma retained_is_filter_le (min_score : Q) :
  forall (C : list Q) (B : list Box) (Sc : list Q),
    length C <= length B ->
    length C <= length Sc ->
    map (detection_at B Sc C) (retained min_score Sc (length C)) =
    filter (confident min_score) (detections B Sc C).
Proof.
  induction C as [|c C IH]; intros B Sc HB HS.
  - unfold detections. destruct Sc; destruct B; reflexivity.
  - destruct B as [|b B]; [simpl in HB; lia|].
    destruct Sc as [|s Sc]; [simpl in HS; lia|].
    simpl in HB, HS. simpl length.
    rewrite retained_cons, map_app, map_map.
    specialize (IH B Sc (le_S_n _ _ HB) (le_S_n _ _ HS)).
    unfold detections, confident. simpl.
    change (map (fun i => detection_at (b :: B) (s :: Sc) (c :: C) (Datatypes.S i)))
      with (map (detection_at B Sc C)).
    rewrite IH. destruct (Qle_bool min_score s); reflexivity.
Qed.

Lemma detections_of_projections (F : list (Box * (Q * Q))) :
  detections (boxes_of F) (scores_of F) (classes_of F) = F.
Proof.
  induction F as [|[b [s c]] F IH]; [reflexivity|].
  unfold detections, boxes_of, scores_of, classes_of in *. simpl.
  now rewrite IH.
Qed.

Lemma projections_of_detections :
  forall (B : list Box) (Sc C : list Q),
    length B = length C ->
    length Sc = length C ->
    boxes_of (detections B Sc C) = B /\
    scores_of (detections B Sc C) = Sc /\
    classes_of (detections B Sc C) = C.
Proof.
  induction B as [|b B IH]; intros [|s Sc] [|c C] HB HS; try discriminate.
  - repeat split.
  - simpl in HB, HS. injection HB as HB. injection HS as HS.
    destruct (IH Sc C HB HS) as (H1 & H2 & H3).
    unfold detections, boxes_of, scores_of, classes_of in *. simpl.
    rewrite H1, H2, H3. repeat split.
Qed.

Lemma projections_length (F : list (Box * (Q * Q))) :
  length (boxes_of F) = length (classes_of F) /\
  length (scores_of F) = length (classes_of F).
Proof. unfold boxes_of, scores_of, classes_of. rewrite !length_map. auto. Qed.

Lemma detections_firstn (B : list Box) (Sc C : list Q) :
  detections (firstn (length C) B) (firstn (length C) Sc) C = detections B Sc C.
Proof.
  unfold detections.
  rewrite <- (combine_firstn_r Sc C).
  destruct (Nat.le_ge_cases (length C) (length Sc)) as [H|H].
  - rewrite (combine_firstn_r B (combine Sc C)).
    rewrite length_combine, Nat.min_r by exact H. reflexivity.
  - rewrite (combine_firstn_r B (combine Sc C)).
    rewrite length_combine, Nat.min_l by exact H.
    rewrite (combine_firstn_r (firstn (length C) B) (combine Sc C)).
    rewrite length_combine, Nat.min_l by exact H.
    rewrite firstn_firstn, Nat.min_l by exact H. reflexivity.
Qed.

Lemma filter_confident_twice (t1 t2 : Q) (D : list (Box * (Q * Q))) :
  (t1 <= t2)%Q ->
  filter (confident t2) (filter (confident t1) D) = filter (confident t2) D.
Proof.
  intros Hle. induction D as [|d D IH]; [reflexivity|]. simpl.
  destruct (confident t1 d) eqn:E1; simpl; rewrite IH; [reflexivity|].
  destruct (confident t2 d) eqn:E2; [|reflexivity].
  unfold confident in *. apply Qle_bool_iff in E2.
  assert (H : Qle_bool t1 (fst (snd d)) = true)
    by (apply Qle_bool_iff; eapply Qle_trans; eassumption).
  congruence.
Qed.

(** The run of [filter_boxes] in terms of the detections it keeps, when no
    index of [classes] is past the end of the two other arrays. *)
Lemma filter_boxes_run_filter (w : world) (min_score : Q) (boxes : mref)
  (scores classes : vref) (B : list Box) (Sc C : list Q) :
  nth_error (mats w) boxes = Some B ->
  nth_error (vecs w) scores = Some Sc ->
  nth_error (vecs w) classes = Some C ->
  length C <= length B ->
  length C <= length Sc ->
  filter_boxes min_score boxes scores classes w =
    (mkWorld
       ((vecs w ++ [scores_of (filter (confident min_score) (detections B Sc C))])
          ++ [classes_of (filter (confident min_score) (detections B Sc C))])
       (mats w ++ [boxes_of (filter (confident min_score) (detections B Sc C))])
       (canvas w),
     inr (length (mats w), length (vecs w), Datatypes.S (length (vecs w)))).
Proof.
  intros HB HS HC HlB HlS.
  rewrite (filter_boxes_run w min_score boxes scores classes B Sc C HB HS HC HlS).
  - rewrite <- (retained_is_filter_le min_score C B Sc HlB HlS).
    unfold boxes_of, scores_of, classes_of. rewrite !map_map.
    rewrite length_app, Nat.add_1_r. reflexivity.
  - intros i Hi. apply retained_spec in Hi. lia.
Qed.

(** A threshold that no score is below keeps everything: the three arrays
    returned are copies of the whole input arrays. *)
Theorem filter_boxes_keeps_all :
  forall (w : world) (min_score : Q) (boxes : mref) (scores classes : vref)
         (B : list Box) (Sc C : list Q),
    nth_error (mats w) boxes = Some B ->
    nth_error (vecs w) scores = Some Sc ->
    nth_error (vecs w) classes = Some C ->
    length B = length C ->
    length Sc = length C ->
    (forall s, In s Sc -> (min_score <= s)%Q) ->
    exists (w' : world) (fb : mref) (fs fc : vref),
      filter_boxes min_score boxes scores classes w = (w', inr (fb, fs, fc)) /\
      nth_error (mats w') fb = Some B /\
      nth_error (vecs w') fs = Some Sc /\
      nth_error (vecs w') fc = Some C /\
      fb <> boxes /\ fs <> scores /\ fc <> classes.
Proof.
  intros w t boxes scores classes B Sc C HB HS HC HlB HlS Hall.
  assert (HF : filter (confident t) (detections B Sc C) = detections B Sc C).
  { apply forallb_filter_id, forallb_forall. intros [b [s c]] Hd.
    unfold confident. simpl. apply Qle_bool_iff, Hall.
    unfold detections in Hd. apply in_combine_r in Hd.
    apply in_combine_l in Hd. exact Hd. }
  destruct (projections_of_detections B Sc C HlB HlS) as (P1 & P2 & P3).
  eexists _, _, _, _. split.
  - apply (filter_boxes_run_filter w t boxes scores classes B Sc C HB HS HC); lia.
  - rewrite HF, P1, P2, P3. cbn [mats vecs].
    split; [apply nth_error_new|]. split; [apply nth_error_old, nth_error_new|].
    split; [apply nth_error_newer|].
    assert (boxes < length (mats w)) by (apply nth_error_Some; congruence).
    assert (scores < length (vecs w)) by (apply nth_error_Some; congruence).
    assert (classes < length (vecs w)) by (apply nth_error_Some; congruence).
    lia.
Qed.

Lemma filter_boxes_keeps_all_witness :
  exists (w' : world) (fb : mref) (fs fc : vref),
    filter_boxes (8#10) 0 0 1 scenario_world = (w', inr (fb, fs, fc)) /\
    nth_error (mats w') fb = Some [scenario_box] /\
    nth_error (vecs w') fs = Some [9#10]%Q /\
    nth_error (vecs w') fc = Some [3#1]%Q /\
    fb <> 0 /\ fs <> 0 /\ fc <> 1.
Proof.
  apply (filter_boxes_keeps_all scenario_world (8#10) 0 0 1
           [scenario_box] [9#10]%Q [3#1]%Q); try reflexivity.
  intros s [<- | []]. vm_compute. discriminate.
Defined.

(** Filtering the result of a filtering again, with a threshold that is not
    lower, gives the arrays that the second threshold gives on the original
    batch; with the same threshold, filtering again changes nothing. *)
Theorem filter_boxes_twice :
  forall (w : world) (t1 t2 : Q) (boxes : mref) (scores classes : vref)
         (B : list Box) (Sc C : list Q),
    nth_error (mats w) boxes = Some B ->
    nth_error (vecs w) scores = Some Sc ->
    nth_error (vecs w) classes = Some C ->
    length B = length C ->
    length Sc = length C ->
    (t1 <= t2)%Q ->
    exists (w1 w2 w3 : world) (fb1 fb2 fb3 : mref) (fs1 fc1 fs2 fc2 fs3 fc3 : vref)
           (B2 : list Box) (S2 C2 : list Q),
      filter_boxes t1 boxes scores classes w = (w1, inr (fb1, fs1, fc1)) /\
      filter_boxes t2 fb1 fs1 fc1 w1 = (w2, inr (fb2, fs2, fc2)) /\
      filter_boxes t2 boxes scores classes w = (w3, inr (fb3, fs3, fc3)) /\
      nth_error (mats w2) fb2 = Some B2 /\ nth_error (mats w3) fb3 = Some B2 /\
      nth_error (vecs w2) fs2 = Some S2 /\ nth_error (vecs w3) fs3 = Some S2 /\
      nth_error (vecs w2) fc2 = Some C2 /\ nth_error (vecs w3) fc3 = Some C2.
Proof.
  intros w t1 t2 boxes scores classes B Sc C HB HS HC HlB HlS Hle.
  pose (F1 := filter (confident t1) (detections B Sc C)).
  pose (w1 := mkWorld ((vecs w ++ [scores_of F1]) ++ [classes_of F1])
                (mats w ++ [boxes_of F1]) (canvas w)).
  assert (R1 : filter_boxes t1 boxes scores classes w =
               (w1, inr (length (mats w), length (vecs w),
                         Datatypes.S (length (vecs w)))))
    by (apply filter_boxes_run_filter; auto; lia).
  assert (R3 := filter_boxes_run_filter w t2 boxes scores classes B Sc C
                  HB HS HC ltac:(lia) ltac:(lia)).
  destruct (projections_length F1) as [L1 L2].
  assert (HB1 : nth_error (mats w1) (length (mats w)) = Some (boxes_of F1))
    by (simpl; apply nth_error_new).
  assert (HS1 : nth_error (vecs w1) (length (vecs w)) = Some (scores_of F1))
    by (simpl; apply nth_error_old, nth_error_new).
  assert (HC1 : nth_error (vecs w1) (Datatypes.S (length (vecs w)))
                = Some (classes_of F1)) by apply nth_error_newer.
  assert (R2 := filter_boxes_run_filter w1 t2 _ _ _ _ _ _ HB1 HS1 HC1
                  ltac:(lia) ltac:(lia)).
  rewrite detections_of_projections in R2. unfold F1 in R2 at 1 2 3.
  rewrite (filter_confident_twice t1 t2 _ Hle) in R2.
  eexists _, _, _, _, _, _, _, _, _, _, _, _, _, _, _.
  split; [exact R1|]. split; [exact R2|]. split; [exact R3|].
  cbn [mats vecs]. repeat split;
    first [ apply nth_error_newer | apply nth_error_new
          | apply nth_error_old, nth_error_new ].
Qed.

Lemma filter_boxes_twice_witness :
  exists (w1 w2 w3 : world) (fb1 fb2 fb3 : mref) (fs1 fc1 fs2 fc2 fs3 fc3 : vref)
         (B2 : list Box) (S2 C2 : list Q),
    filter_boxes (5#10) 0 0 1 scenario_world = (w1, inr (fb1, fs1, fc1)) /\
    filter_boxes (8#10) fb1 fs1 fc1 w1 = (w2, inr (fb2, fs2, fc2)) /\
    filter_boxes (8#10) 0 0 1 scenario_world = (w3, inr (fb3, fs3, fc3)) /\
    nth_error (mats w2) fb2 = Some B2 /\ nth_error (mats w3) fb3 = Some B2 /\
    nth_error (vecs w2) fs2 = Some S2 /\ nth_error (vecs w3) fs3 = Some S2 /\
    nth_error (vecs w2) fc2 = Some C2 /\ nth_error (vecs w3) fc3 = Some C2.
Proof.
  apply (filter_boxes_twice scenario_world (5#10) (8#10) 0 0 1
           [scenario_box] [9#10]%Q [3#1]%Q); try reflexivity.
  vm_compute. discriminate.
Defined.

(** [filter_boxes] takes its length from [classes]: entries of [boxes] and
    [scores] past that length are never read, and the call returns the
    confident detections among the first [len(classes)] positions. *)
Theorem filter_boxes_ignores_trailing :
  forall (w : world) (min_score : Q) (boxes : mref) (scores classes : vref)
         (B : list Box) (Sc C : list Q),
    nth_error (mats w) boxes = Some B ->
    nth_error (vecs w) scores = Some Sc ->
    nth_error (vecs w) classes = Some C ->
    length C <= length B ->
    length C <= length Sc ->
    exists (w' : world) (fb : mref) (fs fc : vref) (F : list (Box * (Q * Q))),
      F = filter (confident min_score)
            (detections (firstn (length C) B) (firstn (length C) Sc) C) /\
      filter_boxes min_score boxes scores classes w = (w', inr (fb, fs, fc)) /\
      nth_error (mats w') fb = Some (boxes_of F) /\
      nth_error (vecs w') fs = Some (scores_of F) /\
      nth_error (vecs w') fc = Some (classes_of F).
Proof.
  intros w t boxes scores classes B Sc C HB HS HC HlB HlS.
  eexists _, _, _, _, _. split; [reflexivity|].
  rewrite detections_firstn. split.
  - apply (filter_boxes_run_filter w t boxes scores classes B Sc C HB HS HC HlB HlS).
  - cbn [mats vecs]. split; [apply nth_error_new|].
    split; [apply nth_error_old, nth_error_new | apply nth_error_newer].
Qed.

Lemma filter_boxes_ignores_trailing_witness :
  exists (w' : world) (fb : mref) (fs fc : vref) (F : list (Box * (Q * Q))),
    F = filter (confident (8#10))
          (detections (firstn (length [3#1]%Q) [scenario_box])
             (firstn (length [3#1]%Q) [9#10; 95#100]%Q) [3#1]%Q) /\
    filter_boxes (8#10) 0 0 1 long_scores_world = (w', inr (fb, fs, fc)) /\
    nth_error (mats w') fb = Some (boxes_of F) /\
    nth_error (vecs w') fs = Some (scores_of F) /\
    nth_error (vecs w') fc = Some (classes_of F).
Proof.
  apply (filter_boxes_ignores_trailing long_scores_world (8#10) 0 0 1
           [scenario_box] [9#10; 95#100]%Q [3#1]%Q); try reflexivity.
  simpl. lia.
Defined.

(** ** More on [to_image_coords] *)



(** For a non-negative height and width, a box whose top is not below its
    bottom and whose left is not right of its right keeps that shape in
    pixel coordinates. *)
Theorem to_image_coords_well_formed :
  forall (w : world) (boxes : mref) (height width : Q) (B : list Box),
    nth_error (mats w) boxes = Some B ->
    (0 <= height)%Q ->
    (0 <= width)%Q ->
    exists (w' : world) (box_coords : mref) (P : list Box),
      to_image_coords boxes height width w = (w', inr box_coords) /\
      nth_error (mats w') box_coords = Some P /\
      (forall i b, nth_error B i = Some b -> well_formed b ->
                   exists p, nth_error P i = Some p /\ well_formed p).
Proof.
  intros w boxes height width B H Hh Hw.
  eexists _, _, _. split; [apply (to_image_coords_run w boxes height width B H)|].
  cbn [mats]. split; [apply nth_error_new|].
  intros i b Hb [H1 H2]. exists (pixel_box height width b).
  split; [now rewrite nth_error_map, Hb|].
  unfold well_formed, pixel_box. cbn [col0 col1 col2 col3].
  split; apply Qmult_le_compat_r; assumption.
Qed.

Lemma to_image_coords_well_formed_witness :
  exists (w' : world) (box_coords : mref) (P : list Box),
    to_image_coords 0 600 1000 scenario_3_world = (w', inr box_coords) /\
    nth_error (mats w') box_coords = Some P /\
    (forall i b, nth_error [scenario_3_box] i = Some b -> well_formed b ->
                 exists p, nth_error P i = Some p /\ well_formed p).
Proof.
  apply (to_image_coords_well_formed scenario_3_world 0 600 1000 [scenario_3_box]);
    [reflexivity | vm_compute; discriminate | vm_compute; discriminate].
Defined.

(** ** More on [draw_boxes] *)

Section DrawingTrace.

Variable COLOR_LIST : list string.
Variable thickness : Z.

(** Box [i] can be drawn: it has a class value, and that value a colour. *)
Let good (C : list Q) (i : nat) : bool :=
  match nth_error C i with
  | Some cls => has_color COLOR_LIST cls
  | None => false
  end.

Lemma draw_trace_returns (rows : list Box) (C : list Q) :
  forall a : nat,
    snd (draw_trace COLOR_LIST thickness rows C a) = inr tt <->
    forallb (good C) (seq a (length rows)) = true.
Proof.
  induction rows as [|row rows IH]; intros a; simpl; [tauto|].
  unfold good at 1, has_color, getitem.
  destruct (nth_error C a) as [cls|]; simpl; [|split; discriminate].
  destruct (class_color COLOR_LIST cls) as [e|color]; simpl;
    [split; discriminate|].
  specialize (IH (S a)).
  destruct (draw_trace COLOR_LIST thickness rows C (S a)). simpl in *. exact IH.
Qed.

(** A loop that raises has drawn the lines of the boxes before the first
    one that cannot be drawn. *)
Lemma draw_trace_stops (rows : list Box) (C : list Q) :
  forall (a : nat) (e : exn),
    snd (draw_trace COLOR_LIST thickness rows C a) = inl e ->
    length (fst (draw_trace COLOR_LIST thickness rows C a)) < length rows /\
    good C (a + length (fst (draw_trace COLOR_LIST thickness rows C a))) = false.
Proof.
  induction rows as [|row rows IH]; intros a e H; simpl in *; [discriminate|].
  unfold good, has_color, getitem in *.
  destruct (nth_error C a) as [cls|] eqn:EC; simpl in *.
  - destruct (class_color COLOR_LIST cls) as [e'|color] eqn:Ec; simpl in *.
    + rewrite Nat.add_0_r, EC, Ec. split; [lia | reflexivity].
    + specialize (IH (S a) e).
      destruct (draw_trace COLOR_LIST thickness rows C (S a)) as [ls r].
      simpl in *. destruct (IH H) as [Hlt Hbad].
      rewrite Nat.add_succ_r. split; [lia | exact Hbad].
  - rewrite Nat.add_0_r, EC. split; [lia | reflexivity].
Qed.

Lemma draw_trace_good (rows : list Box) (C : list Q) (a : nat) :
  forall i, i < length (fst (draw_trace COLOR_LIST thickness rows C a)) ->
            good C (a + i) = true.
Proof.
  intros i Hi.
  destruct (nth_error (fst (draw_trace COLOR_LIST thickness rows C a)) i)
    as [line|] eqn:El; [|apply nth_error_None in El; lia].
  destruct (draw_trace_line COLOR_LIST thickness rows C a i line El)
    as (row & cls & _ & Hcls & Hcol & _ & _).
  unfold good, has_color. now rewrite Hcls, Hcol.
Qed.

(** In a loop that returns, line [i] is the outline of row [i] in the colour
    of class value [a + i]. *)
Lemma draw_trace_nth (rows : list Box) (C : list Q) (a i : nat) (row : Box) :
  snd (draw_trace COLOR_LIST thickness rows C a) = inr tt ->
  nth_error rows i = Some row ->
  exists cls color,
    nth_error C (a + i) = Some cls /\
    class_color COLOR_LIST cls = inr color /\
    nth_error (fst (draw_trace COLOR_LIST thickness rows C a)) i
      = Some (mkLine (box_polyline row) thickness color).
Proof.
  intros Hok Hrow.
  pose proof (draw_trace_complete COLOR_LIST thickness rows C a Hok) as Hlen.
  destruct (nth_error (fst (draw_trace COLOR_LIST thickness rows C a)) i)
    as [line|] eqn:El.
  - destruct (draw_trace_line COLOR_LIST thickness rows C a i line El)
      as (row' & cls & Hrow' & Hcls & Hcol & Hxy & Hw).
    rewrite Hrow in Hrow'. injection Hrow' as <-.
    exists cls, (line_fill line). split; [exact Hcls|]. split; [exact Hcol|].
    destruct line as [xy wd fl]. simpl in *. now subst.
  - apply nth_error_None in El.
    assert (i < length rows) by (apply nth_error_Some; congruence). lia.
Qed.

Lemma good_iff (C : list Q) (i : nat) :
  good C i = true <-> paintable COLOR_LIST C i.
Proof.
  unfold good, paintable. destruct (nth_error C i) as [cls|].
  - rewrite has_color_iff. split.
    + intros H. exists cls. auto.
    + intros [c [[= <-] H]]. exact H.
  - split; [discriminate | intros [c [H _]]; discriminate].
Qed.

Lemma draw_trace_returns_iff (rows : list Box) (C : list Q) :
  snd (draw_trace COLOR_LIST thickness rows C 0) = inr tt <->
  forall i, i < length rows -> paintable COLOR_LIST C i.
Proof.
  rewrite draw_trace_returns, forallb_forall. split.
  - intros H i Hi. apply good_iff, H, in_seq. lia.
  - intros H i Hi. apply in_seq in Hi. apply good_iff, H. lia.
Qed.

End DrawingTrace.

(** [draw_boxes] returns exactly when each box has a class value whose
    integer part (by truncation toward zero) is an index of the colour list;
    it has then drawn, after the lines already on the image, one line per
    box, in the order of the boxes: the outline of the box, with the given
    thickness, in the colour at that index.  The arrays are left as they
    were. *)
Theorem draw_boxes_returns :
  forall (COLOR_LIST : list string) (thickness : Z) (w : world)
         (boxes : mref) (classes : vref) (B : list Box) (C : list Q),
    nth_error (mats w) boxes = Some B ->
    nth_error (vecs w) classes = Some C ->
    ((forall i, i < length B -> paintable COLOR_LIST C i) <->
     exists w', draw_boxes COLOR_LIST boxes classes thickness w = (w', inr tt)) /\
    (forall w',
        draw_boxes COLOR_LIST boxes classes thickness w = (w', inr tt) ->
        exists lines : list line_cmd,
          w' = mkWorld (vecs w) (mats w) (canvas w ++ lines) /\
          length lines = length B /\
          (forall i row,
              nth_error B i = Some row ->
              exists cls z color,
                nth_error C i = Some cls /\
                truncates cls z /\
                list_getitem COLOR_LIST z = inr color /\
                nth_error lines i
                  = Some (mkLine (box_polyline row) thickness color))).
Proof.
  intros CL th w boxes classes B C HB HC.
  rewrite (draw_boxes_run CL th w boxes classes B C HB HC).
  split.
  - rewrite <- (draw_trace_returns_iff CL th B C). split.
    + intros H. rewrite H. eauto.
    + intros [w' H]. now injection H.
  - intros w' Hrun. injection Hrun as <- Hok.
    exists (fst (draw_trace CL th B C 0)).
    split; [reflexivity|]. split; [now apply draw_trace_complete|].
    intros i row Hrow.
    destruct (draw_trace_nth CL th B C 0 i row Hok Hrow)
      as (cls & color & Hcls & Hcol & Hline).
    exists cls, (int_part cls), color.
    split; [exact Hcls|]. split; [apply py_int_truncates|].
    split; [exact Hcol | exact Hline].
Qed.

Lemma draw_boxes_returns_witness :
  ((forall i, i < length [pixel_box_10_20_30_40] ->
              paintable two_colors [0#1]%Q i) <->
   exists w', draw_boxes two_colors 0 0 default_thickness pixel_world
              = (w', inr tt)) /\
  (forall w',
      draw_boxes two_colors 0 0 default_thickness pixel_world = (w', inr tt) ->
      exists lines : list line_cmd,
        w' = mkWorld (vecs pixel_world) (mats pixel_world)
               (canvas pixel_world ++ lines) /\
        length lines = length [pixel_box_10_20_30_40] /\
        (forall i row,
            nth_error [pixel_box_10_20_30_40] i = Some row ->
            exists cls z color,
              nth_error [0#1]%Q i = Some cls /\
              truncates cls z /\
              list_getitem two_colors z = inr color /\
              nth_error lines i
                = Some (mkLine (box_polyline row) default_thickness color))).
Proof.
  apply (draw_boxes_returns two_colors default_thickness pixel_world 0 0
           [pixel_box_10_20_30_40] [0#1]%Q); reflexivity.
Defined.

(** When [draw_boxes] raises, the drawing is partial: the lines of the
    boxes before the first box that has no class value, or whose class
    value has no colour, are already on the image and stay there; the
    arrays and the earlier lines are untouched. *)
Theorem draw_boxes_stops_at_first :
  forall (COLOR_LIST : list string) (thickness : Z) (w w' : world)
         (boxes : mref) (classes : vref) (B : list Box) (C : list Q) (e : exn),
    nth_error (mats w) boxes = Some B ->
    nth_error (vecs w) classes = Some C ->
    draw_boxes COLOR_LIST boxes classes thickness w = (w', inl e) ->
    exists (lines : list line_cmd) (k : nat),
      w' = mkWorld (vecs w) (mats w) (canvas w ++ lines) /\
      length lines = k /\
      k < length B /\
      (forall i, i < k -> paintable COLOR_LIST C i) /\
      ~ paintable COLOR_LIST C k /\
      (forall i line,
          nth_error lines i = Some line ->
          exists row, nth_error B i = Some row /\
                      line_xy line = box_polyline row /\
                      line_width line = thickness).
Proof.
  intros CL th w w' boxes classes B C e HB HC Hrun.
  rewrite (draw_boxes_run CL th w boxes classes B C HB HC) in Hrun.
  injection Hrun as <- He.
  destruct (draw_trace_stops CL th B C 0 e He) as [Hlt Hbad]. simpl in Hbad.
  exists (fst (draw_trace CL th B C 0)), (length (fst (draw_trace CL th B C 0))).
  split; [reflexivity|]. split; [reflexivity|]. split; [exact Hlt|].
  split; [|split].
  - intros i Hi. apply good_iff. apply (draw_trace_good CL th B C 0 i Hi).
  - intros Hp. apply good_iff in Hp. congruence.
  - intros i line Hl.
    destruct (draw_trace_line CL th B C 0 i line Hl)
      as (row & cls & Hrow & _ & _ & Hxy & Hw).
    exists row. auto.
Qed.

Lemma draw_boxes_stops_at_first_witness :
  exists (lines : list line_cmd) (k : nat),
    mkWorld [[0#1; 5#1]]%Q [[pixel_box_10_20_30_40; scenario_box]]
      [mkLine (box_polyline pixel_box_10_20_30_40) default_thickness
         "aliceblue"%string]
      = mkWorld (vecs two_box_world) (mats two_box_world)
          (canvas two_box_world ++ lines) /\
    length lines = k /\
    k < length [pixel_box_10_20_30_40; scenario_box] /\
    (forall i, i < k -> paintable two_colors [0#1; 5#1]%Q i) /\
    ~ paintable two_colors [0#1; 5#1]%Q k /\
    (forall i line,
        nth_error lines i = Some line ->
        exists row, nth_error [pixel_box_10_20_30_40; scenario_box] i = Some row /\
                    line_xy line = box_polyline row /\
                    line_width line = default_thickness).
Proof.
  apply (draw_boxes_stops_at_first two_colors default_thickness two_box_world _ 0 0
           [pixel_box_10_20_30_40; scenario_box] [0#1; 5#1]%Q IndexError);
    reflexivity.
Defined.

(** A negative class id counts from the end of the colour list: for
    [-len(COLOR_LIST) <= class_id < 0] the colour is the one at index
    [len(COLOR_LIST) + class_id]; below [-len(COLOR_LIST)] the lookup raises
    [IndexError]. *)
Theorem class_color_negative :
  forall (COLOR_LIST : list string) (class_id : Z),
    (class_id < 0)%Z ->
    ((- Z.of_nat (length COLOR_LIST) <= class_id)%Z ->
     class_color COLOR_LIST (inject_Z class_id)
       = inr (nth (Z.to_nat (Z.of_nat (length COLOR_LIST) + class_id))
                COLOR_LIST ""%string)) /\
    ((class_id < - Z.of_nat (length COLOR_LIST))%Z ->
     class_color COLOR_LIST (inject_Z class_id) = inl IndexError).
Proof.
  intros CL class_id Hneg. rewrite class_color_finite, py_int_inject_Z.
  unfold list_getitem.
  destruct (Z.leb_spec 0 class_id) as [Hpos|_]; [lia|].
  split; intros H.
  - destruct (Z.leb_spec (- Z.of_nat (length CL)) class_id) as [_|Hlt]; [|lia].
    apply getitem_nth. lia.
  - destruct (Z.leb_spec (- Z.of_nat (length CL)) class_id) as [Hle|_]; [lia|].
    reflexivity.
Qed.

Lemma class_color_negative_witness :
  ((- Z.of_nat (length two_colors) <= -1)%Z ->
   class_color two_colors (inject_Z (-1))
     = inr (nth (Z.to_nat (Z.of_nat (length two_colors) + -1)) two_colors ""%string)) /\
  ((-1 < - Z.of_nat (length two_colors))%Z ->
   class_color two_colors (inject_Z (-1)) = inl IndexError).
Proof.
  apply (class_color_negative two_colors (-1)). reflexivity.
Defined.

(** ** The detection cell *)

Lemma forallb_positions {A} (p : A -> bool) :
  forall (l pre : list A),
    forallb (fun i => match nth_error (pre ++ l) i with
                      | Some x => p x
                      | None => false
                      end) (seq (length pre) (length l))
    = forallb p l.
Proof.
  induction l as [|x l IH]; intros pre; simpl; [reflexivity|].
  rewrite nth_error_app2, Nat.sub_diag by lia. simpl. f_equal.
  specialize (IH (pre ++ [x])).
  rewrite length_app, Nat.add_1_r, <- app_assoc in IH. exact IH.
Qed.

Lemma drawable_classes (COLOR_LIST : list string) (F : list (Box * (Q * Q))) :
  drawable COLOR_LIST (length F) (classes_of F)
  = forallb (fun d => has_color COLOR_LIST (snd (snd d))) F.
Proof.
  unfold drawable, range, classes_of.
  rewrite <- (length_map (fun d : Box * (Q * Q) => snd (snd d)) F).
  pose proof (forallb_positions (has_color COLOR_LIST)
                (map (fun d : Box * (Q * Q) => snd (snd d)) F) []) as H.
  simpl in H. unfold has_color in *. rewrite H. clear H.
  induction F as [|d F IH]; simpl; [reflexivity | now rewrite IH].
Qed.

Section DetectionCell.

Variable COLOR_LIST : list string.
Variables (w : world) (boxes : mref) (scores classes : vref).
Variables (B : list Box) (Sc C : list Q) (width height : Z).
Hypothesis HB : nth_error (mats w) boxes = Some B.
Hypothesis HS : nth_error (vecs w) scores = Some Sc.
Hypothesis HC : nth_error (vecs w) classes = Some C.
Hypothesis HlB : length B = length C.
Hypothesis HlS : length Sc = length C.

Let F := filter (confident confidence_cutoff) (detections B Sc C).
Let PB := map (pixel_box (inject_Z height) (inject_Z width)) (boxes_of F).
Let trace := draw_trace COLOR_LIST default_thickness PB (classes_of F) 0.

(** The run of the cell: four arrays are allocated, the lines of the
    confident detections are drawn. *)
Lemma detection_cell_run :
  detection_cell COLOR_LIST (width, height) boxes scores classes w =
    (mkWorld ((vecs w ++ [scores_of F]) ++ [classes_of F])
       ((mats w ++ [boxes_of F]) ++ [PB])
       (canvas w ++ fst trace),
     snd trace).
Proof.
  unfold detection_cell.
  rewrite (bind_ok _ _ _ _ _
             (filter_boxes_run_filter w confidence_cutoff boxes scores classes
                B Sc C HB HS HC ltac:(lia) ltac:(lia))).
  fold F. cbv beta iota.
  erewrite bind_ok; cycle 1.
  { apply to_image_coords_run with (B := boxes_of F). apply nth_error_new. }
  cbn [vecs mats canvas]. fold PB.
  erewrite draw_boxes_run; [reflexivity | apply nth_error_new | apply nth_error_newer].
Qed.

Lemma PB_length : length PB = length F.
Proof. unfold PB, boxes_of. now rewrite !length_map. Qed.

Lemma detection_cell_trace_returns :
  snd trace = inr tt <->
  forallb (fun d => has_color COLOR_LIST (snd (snd d))) F = true.
Proof.
  unfold trace. rewrite draw_trace_returns, PB_length.
  rewrite <- drawable_classes. reflexivity.
Qed.

End DetectionCell.

(** On a batch of three arrays of one length in which every detection with
    a score of at least the cutoff has a class with a colour, the cell
    returns, and has added to the image one line per such detection, in the
    order of the batch: the outline of its box scaled by the image's height
    and width, with thickness 4, in the colour of its class.  Detections
    below the cutoff are not drawn, and the arrays of the detector are not
    modified. *)
Theorem detection_cell_draws_confident :
  forall (COLOR_LIST : list string) (w : world) (boxes : mref)
         (scores classes : vref) (B : list Box) (Sc C : list Q) (width height : Z),
    nth_error (mats w) boxes = Some B ->
    nth_error (vecs w) scores = Some Sc ->
    nth_error (vecs w) classes = Some C ->
    length B = length C ->
    length Sc = length C ->
    (forall b s c, In (b, (s, c)) (detections B Sc C) ->
                   (confidence_cutoff <= s)%Q ->
                   has_color COLOR_LIST c = true) ->
    exists (w' : world) (lines : list line_cmd),
      detection_cell COLOR_LIST (width, height) boxes scores classes w
        = (w', inr tt) /\
      canvas w' = canvas w ++ lines /\
      length lines
        = length (filter (confident confidence_cutoff) (detections B Sc C)) /\
      (forall k b s c,
          nth_error (filter (confident confidence_cutoff) (detections B Sc C)) k
            = Some (b, (s, c)) ->
          exists color,
            class_color COLOR_LIST c = inr color /\
            nth_error lines k
              = Some (mkLine
                        (box_polyline
                           (pixel_box (inject_Z height) (inject_Z width) b))
                        default_thickness color)) /\
      nth_error (mats w') boxes = Some B /\
      nth_error (vecs w') scores = Some Sc /\
      nth_error (vecs w') classes = Some C.
Proof.
  intros CL w boxes scores classes B Sc C width height HB HS HC HlB HlS Hcol.
  pose (F := filter (confident confidence_cutoff) (detections B Sc C)).
  pose (PB := map (pixel_box (inject_Z height) (inject_Z width)) (boxes_of F)).
  assert (Hok : snd (draw_trace CL default_thickness PB (classes_of F) 0) = inr tt).
  { apply (detection_cell_trace_returns CL B Sc C width height).
    apply forallb_forall. intros [b [s c]] Hd. simpl.
    apply filter_In in Hd. destruct Hd as [Hin Hconf].
    apply (Hcol b s c Hin). now apply Qle_bool_iff. }
  eexists _, _. split.
  - rewrite (detection_cell_run CL w boxes scores classes B Sc C width height
               HB HS HC HlB HlS).
    fold F PB. rewrite Hok. reflexivity.
  - cbn [canvas mats vecs]. split; [reflexivity|]. split.
    { rewrite (draw_trace_complete CL default_thickness PB (classes_of F) 0 Hok).
      unfold PB, boxes_of. now rewrite !length_map. }
    split.
    { intros k b s c Hk. fold F in Hk.
      assert (Hrow : nth_error PB k
                     = Some (pixel_box (inject_Z height) (inject_Z width) b)).
      { unfold PB, boxes_of. rewrite !nth_error_map, Hk. reflexivity. }
      destruct (draw_trace_nth CL default_thickness PB (classes_of F) 0 k _ Hok Hrow)
        as (cls & color & Hcls & Hc & Hline).
      simpl in Hcls. unfold classes_of in Hcls.
      rewrite nth_error_map, Hk in Hcls. simpl in Hcls. injection Hcls as <-.
      exists color. split; [exact Hc | exact Hline]. }
    split; [apply nth_error_old, nth_error_old, HB|].
    split; apply nth_error_old, nth_error_old; assumption.
Qed.

Lemma detection_cell_draws_confident_witness :
  exists (w' : world) (lines : list line_cmd),
    detection_cell five_colors (1000, 600)%Z 0 0 1 scenario_world = (w', inr tt) /\
    canvas w' = canvas scenario_world ++ lines /\
    length lines
      = length (filter (confident confidence_cutoff)
                  (detections [scenario_box] [9#10]%Q [3#1]%Q)) /\
    (forall k b s c,
        nth_error (filter (confident confidence_cutoff)
                     (detections [scenario_box] [9#10]%Q [3#1]%Q)) k
          = Some (b, (s, c)) ->
        exists color,
          class_color five_colors c = inr color /\
          nth_error lines k
            = Some (mkLine
                      (box_polyline (pixel_box (inject_Z 600) (inject_Z 1000) b))
                      default_thickness color)) /\
    nth_error (mats w') 0 = Some [scenario_box] /\
    nth_error (vecs w') 0 = Some [9#10]%Q /\
    nth_error (vecs w') 1 = Some [3#1]%Q.
Proof.
  apply (detection_cell_draws_confident five_colors scenario_world 0 0 1
           [scenario_box] [9#10]%Q [3#1]%Q 1000 600); try reflexivity.
  intros b s c [H | []] _. injection H as <- <- <-. reflexivity.
Defined.

(** On a batch of three arrays of one length the cell raises exactly when
    some detection with a score of at least the cutoff has a class value
    whose integer part is not an index of the colour list: a class outside
    the colour list does no harm on a detection below the cutoff. *)
Theorem detection_cell_raises_iff :
  forall (COLOR_LIST : list string) (w : world) (boxes : mref)
         (scores classes : vref) (B : list Box) (Sc C : list Q) (width height : Z),
    nth_error (mats w) boxes = Some B ->
    nth_error (vecs w) scores = Some Sc ->
    nth_error (vecs w) classes = Some C ->
    length B = length C ->
    length Sc = length C ->
    (raises (detection_cell COLOR_LIST (width, height) boxes scores classes) w <->
     exists b s c, In (b, (s, c)) (detections B Sc C) /\
                   (confidence_cutoff <= s)%Q /\
                   ~ in_palette COLOR_LIST c).
Proof.
  intros CL w boxes scores classes B Sc C width height HB HS HC HlB HlS.
  pose (F := filter (confident confidence_cutoff) (detections B Sc C)).
  pose (PB := map (pixel_box (inject_Z height) (inject_Z width)) (boxes_of F)).
  unfold raises.
  rewrite (detection_cell_run CL w boxes scores classes B Sc C width height
             HB HS HC HlB HlS).
  fold F PB. cbn [snd]. split.
  - intros [e He].
    destruct (forallb (fun d => has_color CL (snd (snd d))) F) eqn:E.
    + apply (detection_cell_trace_returns CL B Sc C width height) in E.
      fold F PB in E. congruence.
    + apply not_true_iff_false in E.
      destruct (Exists_dec (fun d : Box * (Q * Q) => has_color CL (snd (snd d)) = false) F)
        as [Hex|Hno].
      { intros d. destruct (has_color CL (snd (snd d))); [right|left]; congruence. }
      * apply Exists_exists in Hex. destruct Hex as [[b [s c]] [Hin Hbad]].
        apply filter_In in Hin. destruct Hin as [Hin Hconf].
        exists b, s, c. split; [exact Hin|]. split; [now apply Qle_bool_iff|].
        intros Hp. apply has_color_iff in Hp. simpl in Hbad. congruence.
      * exfalso. apply E. apply forallb_forall. intros d Hd.
        destruct (has_color CL (snd (snd d))) eqn:Ed; [reflexivity|].
        exfalso. apply Hno. apply Exists_exists. eauto.
  - intros (b & s & c & Hin & Hconf & Hbad).
    destruct (snd (draw_trace CL default_thickness PB (classes_of F) 0))
      as [e|[]] eqn:E; [eauto|].
    apply (detection_cell_trace_returns CL B Sc C width height) in E.
    fold F in E. rewrite forallb_forall in E.
    assert (HF : In (b, (s, c)) F).
    { apply filter_In. split; [exact Hin|]. now apply Qle_bool_iff. }
    specialize (E _ HF). simpl in E. apply has_color_iff in E. contradiction.
Qed.

Lemma detection_cell_raises_iff_witness :
  raises (detection_cell two_colors (1000, 600)%Z 0 0 1) scenario_world <->
  exists b s c, In (b, (s, c)) (detections [scenario_box] [9#10]%Q [3#1]%Q) /\
                (confidence_cutoff <= s)%Q /\
                ~ in_palette two_colors c.
Proof.
  apply (detection_cell_raises_iff two_colors scenario_world 0 0 1
           [scenario_box] [9#10]%Q [3#1]%Q 1000 600); reflexivity.
Defined.

(** ** More on the parameter counts *)

Local Open Scope N_scope.

Lemma count_params_rejected (cin cout k h w : N) :
  cin = 0 \/ cout = 0 -> count_params cin cout k h w = no_report.
Proof.
  intros H. unfold count_params.
  now rewrite (parameter_cell_raises cin cout k h w H).
Qed.





(** The reduction never exceeds the square of the kernel size: the vanilla
    total is at most [k*k] times the separable total (at most 9 times for a
    3x3 kernel). *)
Theorem reduction_at_most_kernel_area :
  forall (cin cout k h w : N),
    counts_in_range cin cout k ->
    1 <= k ->
    total_vanilla_params (count_params cin cout k h w)
      <= k * k * total_mobile_params (count_params cin cout k h w).
Proof.
  intros cin cout k h w _ Hk.
  destruct (N.eq_dec cin 0) as [Hc|Hc].
  { rewrite (count_params_rejected cin cout k h w (or_introl Hc)). simpl. lia. }
  destruct (N.eq_dec cout 0) as [Ho|Ho].
  { rewrite (count_params_rejected cin cout k h w (or_intror Ho)). simpl. lia. }
  destruct (count_params_totals cin cout k h w) as [-> ->]; [lia | lia |].
  assert (Hkk : 1 <= k * k) by nia.
  set (kk := k * k) in *.
  assert (H1 : kk * cin * cout <= kk * (cin * cout)) by lia.
  assert (H2 : 3 * cout <= kk * (3 * cout)) by nia.
  nia.
Qed.

Lemma reduction_at_most_kernel_area_witness :
  total_vanilla_params (count_params 32 512 3 256 256)
    <= 3 * 3 * total_mobile_params (count_params 32 512 3 256 256).
Proof.
  apply (reduction_at_most_kernel_area 32 512 3 256 256).
  - split; vm_compute; reflexivity.
  - vm_compute. discriminate.
Defined.

(** With at least 6 input channels and more than [2*k*k + 4] output
    channels, the weights of the pointwise convolution are more than half
    of all the parameters counted for the separable block. *)
Theorem pointwise_weights_are_the_majority :
  forall (cin cout k h w : N),
    counts_in_range cin cout k ->
    6 <= cin ->
    2 * (k * k) + 4 < cout ->
    In ("mobile/conv2d/kernel:0"%string, cin * cout)
      (mobile_params (count_params cin cout k h w)) /\
    total_mobile_params (count_params cin cout k h w) < 2 * (cin * cout).
Proof.
  intros cin cout k h w _ Hc Ho. split.
  - destruct cin as [|p]; [lia|]. destruct cout as [|q]; [lia|].
    cbv -[N.mul N.add N.div N.eqb]. rewrite !N.mul_1_r.
    cbv -[N.mul N.add N.div]. do 3 right. left.
    first [reflexivity | f_equal; lia].
  - destruct (count_params_totals cin cout k h w) as [_ ->]; [lia | lia |].
    set (kk := k * k) in *.
    assert (H1 : 6 * cout <= cin * cout) by nia.
    assert (H2 : cin * (2 * kk + 5) <= cin * cout) by nia.
    nia.
Qed.

Lemma pointwise_weights_are_the_majority_witness :
  In ("mobile/conv2d/kernel:0"%string, 32 * 512)
    (mobile_params (count_params 32 512 3 256 256)) /\
  total_mobile_params (count_params 32 512 3 256 256) < 2 * (32 * 512).
Proof.
  apply (pointwise_weights_are_the_majority 32 512 3 256 256).
  - split; vm_compute; reflexivity.
  - vm_compute. discriminate.
  - vm_compute. reflexivity.
Defined.
